(** * Fingerprint service: a shallow embedding of [fingerprint.js]

    The development follows the source file from top to bottom: the two
    user-agent parsers, the attribute collector, the fallback hash
    [simpleHash], the digest selector [sha256], and the public entry points
    [generateHash], [getFingerprint] and [getHash].

    Modelling conventions.
    - A JavaScript string that the program parses or builds is a
      [String.string]; the character with number [n] stands for the UTF-16
      code unit [n], so these strings have code units below 256 (every
      ASCII user agent, timezone name and locale tag among them).  The
      fallback hash, which only reads code units, takes its input as the
      list of them, so that it is modelled on every string.
    - A JavaScript Number that the program computes with (the rolling
      hashes) is a [Z]; every intermediate value of those loops is an
      integer far below 2^53 for any string an engine can hold (the
      largest is a code unit times a position), so double arithmetic is
      exact there.  The Numbers the program only passes
      around (screen size, pixel ratio) are kept abstract behind the
      [JSNumber] interface.
    - [console.warn] and exceptions are explicit: a computation returns the
      warnings it emitted together with either a value or a thrown error.
    - An [async] function is modelled by the value its promise settles to;
      a promise that never settles is outside the model. *)

From Equations Require Import Equations.
From Stdlib Require Import ZArith List Lia Bool Ascii String.
From Stdlib Require Import DecimalString.
Import ListNotations.

Local Open Scope string_scope.
Local Open Scope Z_scope.

(** ** JavaScript primitives used by the program *)

Module JS.

(** ToInt32 of ECMA-262, on integral arguments. *)
Definition ToInt32 (x : Z) : Z :=
  let int32bit := x mod 2 ^ 32 in
  if int32bit >=? 2 ^ 31 then int32bit - 2 ^ 32 else int32bit.

(** [x << n]: both operands are converted, the shift count is masked to
    five bits and the result is again an int32. *)
Definition shl (x n : Z) : Z :=
  ToInt32 (Z.shiftl (ToInt32 x) (Z.land n 31)).

(** [x & y]. *)
Definition band (x y : Z) : Z :=
  ToInt32 (Z.land (ToInt32 x) (ToInt32 y)).

(** [Math.abs]. *)
Definition Math_abs (x : Z) : Z := Z.abs x.

(** The UTF-16 code units of a string. *)
Definition codeUnits (str : string) : list Z :=
  map (fun c => Z.of_N (N_of_ascii c)) (list_ascii_of_string str).

(** [str.length], on the code units of [str]. *)
Definition length (str : list Z) : nat := List.length str.

(** [str.charCodeAt(i)]; [None] stands for the NaN returned out of range. *)
Definition charCodeAt (str : list Z) (i : nat) : option Z := nth_error str i.

Definition hexDigit (d : Z) : ascii :=
  match String.get (Z.to_nat d) "0123456789abcdef" with
  | Some c => c
  | None => "0"%char
  end.

(** The digits of a non-negative integer in radix 16, most significant
    first, no leading zero. *)
Equations? hexDigits (n : Z) : string by wf (Z.to_nat (Z.log2 n)) lt :=
  hexDigits n with Z_lt_dec n 16 := {
    | left _ => String (hexDigit n) EmptyString
    | right _ => hexDigits (n / 16) ++ String (hexDigit (n mod 16)) EmptyString }.
Proof.
  change 16 with (2 ^ 4) at 1.
  rewrite <- Z.shiftr_div_pow2, Z.log2_shiftr by lia.
  assert (4 <= Z.log2 n) by (apply Z.log2_le_pow2; lia).
  lia.
Qed.

(** [n.toString(16)] for an integral [n]. *)
Definition toString16 (n : Z) : string :=
  if n <? 0 then String "-"%char (hexDigits (- n)) else hexDigits n.

(** The filler of [padStart]: [fillLen] characters taken cyclically from
    [padString]; [cur] is what is left of the current copy. *)
Fixpoint filler (fillLen : nat) (padString cur : string) : string :=
  match fillLen with
  | O => EmptyString
  | S k =>
      match cur with
      | String c rest => String c (filler k padString rest)
      | EmptyString =>
          match padString with
          | String c rest => String c (filler k padString rest)
          | EmptyString => EmptyString
          end
      end
  end.

(** [str.padStart(targetLength, padString)]. *)
Definition padStart (str : string) (targetLength : nat) (padString : string) : string :=
  if (targetLength <=? String.length str)%nat then str
  else filler (targetLength - String.length str) padString padString ++ str.

(** [str.toLowerCase()] on one code unit below 256: the Latin capital
    letters A-Z and the Latin-1 capitals U+00C0-U+00DE (U+00D7, the
    multiplication sign, apart) move up by 32; nothing else changes. *)
Definition lowerChar (c : ascii) : ascii :=
  let n := N_of_ascii c in
  if ((65 <=? n) && (n <=? 90)
      || (192 <=? n) && (n <=? 222) && negb (n =? 215))%N
  then ascii_of_N (n + 32) else c.

Fixpoint toLowerCase (str : string) : string :=
  match str with
  | EmptyString => EmptyString
  | String c rest => String (lowerChar c) (toLowerCase rest)
  end.

(** [/lit/.test(str)] for a pattern without metacharacters: [lit] occurs
    somewhere in [str]. *)
Fixpoint includes (lit str : string) : bool :=
  String.prefix lit str
  || match str with
     | EmptyString => false
     | String _ rest => includes lit rest
     end.

(** [/a|b|c/.test(str)]: one of the alternatives occurs in [str]. *)
Definition test (alternatives : list string) (str : string) : bool :=
  existsb (fun lit => includes lit str) alternatives.

(** The character classes of the version patterns.  [\s] is the white
    space of ECMA-262 restricted to code units below 256. *)
Definition isSpace (c : ascii) : bool :=
  let n := N_of_ascii c in
  ((9 <=? n) && (n <=? 13) || (n =? 32) || (n =? 160))%N.

Definition isDigit (c : ascii) : bool :=
  let n := N_of_ascii c in ((48 <=? n) && (n <=? 57))%N.

(** [[\d.]] and [[\d_]]. *)
Definition digitOrDot (c : ascii) : bool := isDigit c || Ascii.eqb c ".".
Definition digitOrUnderscore (c : ascii) : bool := isDigit c || Ascii.eqb c "_".

(** A pattern of the shape [/literal\s([class]+)/]. *)
Record VersionRegExp := {
  literal : string;
  class : ascii -> bool
}.

Fixpoint takeWhile (p : ascii -> bool) (str : string) : string :=
  match str with
  | String c rest => if p c then String c (takeWhile p rest) else EmptyString
  | EmptyString => EmptyString
  end.

Fixpoint drop (n : nat) (str : string) : string :=
  match n, str with
  | S k, String _ rest => drop k rest
  | _, _ => str
  end.

(** An attempt to match [re] at the very start of [str]; the result is the
    text of the capture group.  The group is greedy and nothing follows
    it, so the longest run of class characters is the match. *)
Definition matchHere (re : VersionRegExp) (str : string) : option string :=
  if String.prefix (literal re) str then
    match drop (String.length (literal re)) str with
    | String c rest =>
        if isSpace c then
          match takeWhile (class re) rest with
          | EmptyString => None
          | group => Some group
          end
        else None
    | EmptyString => None
    end
  else None.

(** [str.match(re)] for a pattern without the [g] flag: the leftmost
    position where the pattern matches wins.  [Some g] stands for the
    match array, [g] being its element 1; [None] stands for [null]. *)
Fixpoint match_ (str : string) (re : VersionRegExp) : option string :=
  match matchHere re str with
  | Some group => Some group
  | None =>
      match str with
      | EmptyString => None
      | String _ rest => match_ rest re
      end
  end.

(** [str.replace(/_/g, '.')]. *)
Fixpoint replaceUnderscores (str : string) : string :=
  match str with
  | EmptyString => EmptyString
  | String c rest =>
      String (if Ascii.eqb c "_" then "."%char else c) (replaceUnderscores rest)
  end.

End JS.

(** ** User-agent parsing *)

(** [getPlatformType], lines 13-21.  The global [navigator.userAgent] the
    function reads is its argument here. *)
Definition getPlatformType (navigator_userAgent : string) : string :=
  let ua := JS.toLowerCase navigator_userAgent in
  if JS.test ["android"] ua then "android"
  else if JS.test ["iphone"; "ipad"; "ipod"] ua then "ios"
  else if JS.test ["macintosh"; "mac os"] ua then "macos"
  else if JS.test ["windows"] ua then "windows"
  else if JS.test ["linux"] ua then "linux"
  else "web".

Definition re_Android : JS.VersionRegExp :=
  {| JS.literal := "Android"; JS.class := JS.digitOrDot |}.
Definition re_OS : JS.VersionRegExp :=
  {| JS.literal := "OS"; JS.class := JS.digitOrUnderscore |}.
Definition re_WindowsNT : JS.VersionRegExp :=
  {| JS.literal := "Windows NT"; JS.class := JS.digitOrDot |}.
Definition re_MacOSX : JS.VersionRegExp :=
  {| JS.literal := "Mac OS X"; JS.class := JS.digitOrUnderscore |}.

(** [getOSVersion], lines 27-37. *)
Definition getOSVersion (navigator_userAgent : string) : string :=
  let ua := navigator_userAgent in
  match JS.match_ ua re_Android with
  | Some match1 => match1
  | None =>
  match JS.match_ ua re_OS with
  | Some match1 => JS.replaceUnderscores match1
  | None =>
  match JS.match_ ua re_WindowsNT with
  | Some match1 => match1
  | None =>
  match JS.match_ ua re_MacOSX with
  | Some match1 => JS.replaceUnderscores match1
  | None => "unknown"
  end end end end.

Definition ua_macos : string :=
  "Mozilla/5.0 (Macintosh; Intel Mac OS X 10_15_7) AppleWebKit/537.36 (KHTML, like Gecko) Chrome/120.0.0.0 Safari/537.36".
Definition ua_iphone : string :=
  "Mozilla/5.0 (iPhone; CPU iPhone OS 14_0 like Mac OS X) AppleWebKit/605.1.15 (KHTML, like Gecko) Version/14.0 Mobile/15E148 Safari/604.1".
Definition ua_android : string :=
  "Mozilla/5.0 (Linux; Android 10; Pixel 3) AppleWebKit/537.36 (KHTML, like Gecko) Chrome/120.0.0.0 Mobile Safari/537.36".
Definition ua_windows : string :=
  "Mozilla/5.0 (Windows NT 10.0; Win64; x64) AppleWebKit/537.36 (KHTML, like Gecko) Chrome/120.0.0.0 Safari/537.36".

(** ** The fallback hash *)

(** [simpleHash], lines 60-94, on the code units of its argument.  Each
    [for] loop is a fold of its body over the indices it visits;
    [hash & hash] is the conversion to int32. *)

Definition pass1_body (str : list Z) (hash : Z) (i : nat) : Z :=
  match JS.charCodeAt str i with
  | Some char =>
      let hash := (JS.shl hash 5 - hash) + char in
      JS.band hash hash
  | None => 0
  end.

Definition pass2_body (str : list Z) (hash2 : Z) (i : nat) : Z :=
  match JS.charCodeAt str i with
  | Some char =>
      let hash2 := (JS.shl hash2 7 - hash2) + char + Z.of_nat i in
      JS.band hash2 hash2
  | None => 0
  end.

Definition pass3_body (str : list Z) (hash3 : Z) (i : nat) : Z :=
  match JS.charCodeAt str i with
  | Some char =>
      let hash3 := (JS.shl hash3 3 - hash3) + char * (Z.of_nat i + 1) in
      JS.band hash3 hash3
  | None => 0
  end.

Definition pass4_body (str : list Z) (hash4 : Z) (i : nat) : Z :=
  match JS.charCodeAt str i with
  | Some char =>
      let hash4 := (JS.shl hash4 5 + hash4) + char in
      JS.band hash4 hash4
  | None => 0
  end.

(** [for (let i = 0; i < str.length; i++)] *)
Definition upIndices (str : list Z) : list nat := seq 0 (JS.length str).

(** [for (let i = str.length - 1; i >= 0; i--)] *)
Definition downIndices (str : list Z) : list nat := rev (seq 0 (JS.length str)).

(** The four loops, each from the initial value of its variable. *)
Definition loop1 (str : list Z) : Z := fold_left (pass1_body str) (upIndices str) 0.
Definition loop2 (str : list Z) : Z := fold_left (pass2_body str) (upIndices str) 0.
Definition loop3 (str : list Z) : Z := fold_left (pass3_body str) (downIndices str) 0.
Definition loop4 (str : list Z) : Z := fold_left (pass4_body str) (upIndices str) 5381.

(** [Math.abs(hash).toString(16).padStart(8, '0')] *)
Definition hex8 (hash : Z) : string :=
  JS.padStart (JS.toString16 (JS.Math_abs hash)) 8 "0".

Definition simpleHash (str : list Z) : string :=
  let hash := loop1 str in
  let hash1 := hex8 hash in
  let hash2 := loop2 str in
  let hash2Str := hex8 hash2 in
  let hash3 := loop3 str in
  let hash3Str := hex8 hash3 in
  let hash4 := loop4 str in
  let hash4Str := hex8 hash4 in
  hash1 ++ hash2Str ++ hash3Str ++ hash4Str.

(** ** Values, effects and the host *)

(** How the decimal rendering of a Number can begin: a digit, a minus
    sign, or the first letter of Infinity or NaN. *)
Definition numericHead (s : string) : bool :=
  match s with
  | String c _ =>
      JS.isDigit c || Ascii.eqb c "-" || Ascii.eqb c "I" || Ascii.eqb c "N"
  | EmptyString => false
  end.

(** The Numbers the program receives from the host and hands on: it only
    ever converts them to a string (in [join]), tests them for falsiness
    (in [||]) and writes the literal [1]. *)
Class JSNumber (number : Type) := {
  numberToString : number -> string;
  numberToBoolean : number -> bool;
  numberOne : number;
  numberToString_head : forall n, numericHead (numberToString n) = true
}.

(** Integral Numbers of magnitude at most 2^53, which print in plain
    decimal notation. *)
Definition integerToString (z : Z) : string :=
  NilZero.string_of_int (Z.to_int z).

#[export] Instance IntegerNumber : JSNumber Z.
Proof.
  refine {| numberToString := integerToString;
            numberToBoolean := fun z => negb (z =? 0);
            numberOne := 1;
            numberToString_head := _ |}.
  intros z. unfold integerToString, Z.to_int.
  destruct z as [| p | p]; [reflexivity | | reflexivity].
  simpl. destruct (Pos.to_uint p); reflexivity.
Defined.

(** The primitive values a property of the parameter object can hold.
    Symbols and objects, whose conversion to a string can throw or run
    arbitrary code, are not modelled. *)
Inductive value (number : Type) : Type :=
| VUndefined
| VNull
| VBoolean (b : bool)
| VNumber (n : number)
| VString (s : string).

Arguments VUndefined {number}.
Arguments VNull {number}.
Arguments VBoolean {number} b.
Arguments VNumber {number} n.
Arguments VString {number} s.

(** How an evaluation ends. *)
Inductive completion (A : Type) : Type :=
| Normal (a : A)
| Throw (error : string).

Arguments Normal {A} a.
Arguments Throw {A} error.

(** A computation: the warnings written to the console, in order, and the
    completion. *)
Definition Eff (A : Type) : Type := (list string * completion A)%type.

Definition ret {A} (a : A) : Eff A := ([], Normal a).

Definition bind {A B} (m : Eff A) (k : A -> Eff B) : Eff B :=
  match m with
  | (log, Normal a) => let (log', c) := k a in ((log ++ log')%list, c)
  | (log, Throw e) => (log, Throw e)
  end.

Definition console_warn (msg : string) : Eff unit := ([msg], Normal tt).

(** [await] of a promise that settles to [c]. *)
Definition await {A} (c : completion A) : Eff A := ([], c).

(** [try { body } catch (e) { handler }]. *)
Definition tryCatch {A} (body : Eff A) (handler : string -> Eff A) : Eff A :=
  match body with
  | (log, Throw e) => let (log', c) := handler e in ((log ++ log')%list, c)
  | done => done
  end.

Notation "x <- m ;; k" := (bind m (fun x => k))
  (at level 61, m at next level, right associativity).
Notation "m ;;; k" := (bind m (fun _ => k))
  (at level 61, right associativity).

(** What the caller of an [async] function sees. *)
Definition log {A} (m : Eff A) : list string := fst m.
Definition outcome {A} (m : Eff A) : completion A := snd m.

(** The parameter object of [generateHash] and the [attributes] object: a
    property that is absent reads as [VUndefined]. *)
Record Params (number : Type) := {
  devicePlatform : value number;
  osVersion : value number;
  screenWidth : value number;
  screenHeight : value number;
  pixelRatio : value number;
  timezone : value number;
  language : value number;
  platform : value number
}.

Arguments devicePlatform {number} _.
Arguments osVersion {number} _.
Arguments screenWidth {number} _.
Arguments screenHeight {number} _.
Arguments pixelRatio {number} _.
Arguments timezone {number} _.
Arguments language {number} _.
Arguments platform {number} _.

(** The object [getFingerprint] returns. *)
Record FingerprintResult (number : Type) := {
  attributes : Params number;
  hash : string
}.

Arguments attributes {number} _.
Arguments hash {number} _.

(** The host environment: the globals the program reads.
    [crypto_subtle] is [None] when [window.crypto && window.crypto.subtle]
    is falsy; otherwise it is the [digest] method, from an algorithm name
    and the bytes to a buffer or a rejection. *)
Record Host (number : Type) := {
  navigator_userAgent : string;
  navigator_language : value number;
  screen_width : value number;
  screen_height : value number;
  window_devicePixelRatio : value number;
  resolved_timeZone : value number;
  crypto_subtle : option (string -> list Byte.byte -> completion (list Byte.byte))
}.

Arguments navigator_userAgent {number} _.
Arguments navigator_language {number} _.
Arguments screen_width {number} _.
Arguments screen_height {number} _.
Arguments window_devicePixelRatio {number} _.
Arguments resolved_timeZone {number} _.
Arguments crypto_subtle {number} _.

Section Program.

Context {number : Type} `{JSNumber number}.

(** ToBoolean and ToString of ECMA-262. *)
Definition ToBoolean (v : value number) : bool :=
  match v with
  | VUndefined | VNull => false
  | VBoolean b => b
  | VNumber n => numberToBoolean n
  | VString s => negb (s =? "")%string
  end.

Definition ToString (v : value number) : string :=
  match v with
  | VUndefined => "undefined"
  | VNull => "null"
  | VBoolean true => "true"
  | VBoolean false => "false"
  | VNumber n => numberToString n
  | VString s => s
  end.

(** [a || b]. *)
Definition or_else (a b : value number) : value number := if ToBoolean a then a else b.

(** [v !== 'lit']. *)
Definition strictNotEqual (v : value number) (lit : string) : bool :=
  match v with
  | VString s => negb (s =? lit)%string
  | _ => true
  end.

(** A default initialiser ([x = dflt] in a parameter list or a
    destructuring pattern) applies when the value is [undefined]. *)
Definition withDefault (v dflt : value number) : value number :=
  match v with
  | VUndefined => dflt
  | _ => v
  end.

(** [elems.join(sep)]: [undefined] and [null] contribute the empty string,
    every other element its ToString. *)
Definition joinElement (v : value number) : string :=
  match v with
  | VUndefined | VNull => ""
  | _ => ToString v
  end.

Definition Array_join (elems : list (value number)) (sep : string) : string :=
  String.concat sep (map joinElement elems).

(** [collectAttributes], lines 43-53. *)
Definition collectAttributes (host : Host number) : Params number :=
  {| devicePlatform := VString (getPlatformType (navigator_userAgent host));
     osVersion := VString (getOSVersion (navigator_userAgent host));
     screenWidth := screen_width host;
     screenHeight := screen_height host;
     pixelRatio := or_else (window_devicePixelRatio host) (VNumber numberOne);
     timezone := resolved_timeZone host;
     language := navigator_language host;
     platform := VUndefined |}.

(** [new TextEncoder().encode(str)]: UTF-8, for code units below 256. *)
Definition encodeUnit (c : ascii) : list Byte.byte :=
  let n := N_of_ascii c in
  if (n <? 128)%N then [byte_of_ascii c]
  else [byte_of_ascii (ascii_of_N (192 + n / 64));
        byte_of_ascii (ascii_of_N (128 + n mod 64))].

Definition TextEncoder_encode (str : string) : list Byte.byte :=
  flat_map encodeUnit (list_ascii_of_string str).

(** [b => b.toString(16).padStart(2, '0')] *)
Definition byteHex (b : Byte.byte) : string :=
  JS.padStart (JS.toString16 (Z.of_N (Byte.to_N b))) 2 "0".

Definition warn_failed : string :=
  "[Fingerprint] crypto.subtle failed, using fallback hash".
Definition warn_unavailable : string :=
  "[Fingerprint] crypto.subtle not available, using fallback hash".
Definition warn_platform : string :=
  "[Fingerprint] Invalid platform value, defaulting to "
  ++ String "034" "admin" ++ String "034" "".

(** [sha256], lines 101-118. *)
Definition sha256 (host : Host number) (str : string) : Eff string :=
  match crypto_subtle host with
  | Some digest =>
      tryCatch
        (buffer <- await (digest "SHA-256" (TextEncoder_encode str)) ;;
         ret (String.concat "" (map byteHex buffer)))
        (fun e =>
           console_warn warn_failed ;;;
           ret (simpleHash (JS.codeUnits str)))
  | None =>
      console_warn warn_unavailable ;;;
      ret (simpleHash (JS.codeUnits str))
  end.

(** The local [fingerprintString] of [generateHash], lines 150-159, from
    the parameter object and the validated [platform]. *)
Definition fingerprintString (params : Params number) (platform : value number) : string :=
  Array_join [devicePlatform params;
              osVersion params;
              screenWidth params;
              screenHeight params;
              pixelRatio params;
              timezone params;
              language params;
              platform] "|".

(** [generateHash], lines 133-162. *)
Definition generateHash (host : Host number) (params : Params number) : Eff string :=
  let platform := withDefault (platform params) (VString "admin") in
  platform <-
    (if strictNotEqual platform "admin" && strictNotEqual platform "shell"
     then console_warn warn_platform ;;; ret (VString "admin")
     else ret platform) ;;
  sha256 host (fingerprintString params platform).

(** [{...attributes, platform}] *)
Definition spread (attributes : Params number) (platform : value number) : Params number :=
  {| devicePlatform := devicePlatform attributes;
     osVersion := osVersion attributes;
     screenWidth := screenWidth attributes;
     screenHeight := screenHeight attributes;
     pixelRatio := pixelRatio attributes;
     timezone := timezone attributes;
     language := language attributes;
     platform := platform |}.

(** [getFingerprint], lines 169-183. *)
Definition getFingerprint (host : Host number) (platform : value number) : Eff (FingerprintResult number) :=
  let platform := withDefault platform (VString "admin") in
  let attributes := collectAttributes host in
  hash <- generateHash host (spread attributes platform) ;;
  ret {| attributes := spread attributes platform; hash := hash |}.

(** [getHash], lines 190-193. *)
Definition getHash (host : Host number) (platform : value number) : Eff string :=
  result <- getFingerprint host platform ;;
  ret (hash result).

End Program.

(** ** Records, fields and example hosts *)

(** The eight properties of the parameter object. *)
Inductive field : Type :=
| FDevicePlatform | FOsVersion | FScreenWidth | FScreenHeight
| FPixelRatio | FTimezone | FLanguage | FPlatform.

Definition getField {number} (f : field) (r : Params number) : value number :=
  match f with
  | FDevicePlatform => devicePlatform r
  | FOsVersion => osVersion r
  | FScreenWidth => screenWidth r
  | FScreenHeight => screenHeight r
  | FPixelRatio => pixelRatio r
  | FTimezone => timezone r
  | FLanguage => language r
  | FPlatform => platform r
  end.

Definition setField {number} (f : field) (v : value number) (r : Params number) : Params number :=
  {| devicePlatform := match f with FDevicePlatform => v | _ => devicePlatform r end;
     osVersion := match f with FOsVersion => v | _ => osVersion r end;
     screenWidth := match f with FScreenWidth => v | _ => screenWidth r end;
     screenHeight := match f with FScreenHeight => v | _ => screenHeight r end;
     pixelRatio := match f with FPixelRatio => v | _ => pixelRatio r end;
     timezone := match f with FTimezone => v | _ => timezone r end;
     language := match f with FLanguage => v | _ => language r end;
     platform := match f with FPlatform => v | _ => platform r end |}.

(** A Number replaced by the string of its standard conversion; any other
    value is left as it is. *)
Definition stringifyNumber {number} `{JSNumber number} (v : value number) : value number :=
  match v with
  | VNumber n => VString (numberToString n)
  | _ => v
  end.

(** The platform the hasher uses for a platform value it was given: the
    value itself when it is "admin" or "shell", "admin" otherwise. *)
Definition coercePlatform {number} (v : value number) : value number :=
  if strictNotEqual v "admin" && strictNotEqual v "shell"
  then VString "admin" else v.

(** The canonical string of a record: its eight fields joined. *)
Definition canonicalize {number} `{JSNumber number} (r : Params number) : string :=
  fingerprintString r (platform r).

(** The record of the end-to-end example. *)
Definition example_params : Params Z :=
  {| devicePlatform := VString "macos";
     osVersion := VString "10.15.7";
     screenWidth := VNumber 1440;
     screenHeight := VNumber 900;
     pixelRatio := VNumber 2;
     timezone := VString "America/New_York";
     language := VString "en-US";
     platform := VString "admin" |}.

(** A desktop browser on an insecure origin: no [crypto.subtle]. *)
Definition host_insecure : Host Z :=
  {| navigator_userAgent := ua_macos;
     navigator_language := VString "en-US";
     screen_width := VNumber 1440;
     screen_height := VNumber 900;
     window_devicePixelRatio := VNumber 2;
     resolved_timeZone := VString "America/New_York";
     crypto_subtle := None |}.

(** The same browser with a [crypto.subtle.digest] that rejects. *)
Definition host_failing : Host Z :=
  {| navigator_userAgent := ua_macos;
     navigator_language := VString "en-US";
     screen_width := VNumber 1440;
     screen_height := VNumber 900;
     window_devicePixelRatio := VNumber 2;
     resolved_timeZone := VString "America/New_York";
     crypto_subtle := Some (fun _ _ => Throw "OperationError") |}.

(** The platform argument of [getFingerprint] is well formed: omitted, or
    one of the two application contexts. *)
Definition validPlatform {number} (p : value number) : Prop :=
  p = VUndefined \/ p = VString "admin" \/ p = VString "shell".

(** ** The fallback digest as the specification words it *)

Module Reference.

(** Truncation to a signed 32-bit integer. *)
Definition trunc32 (x : Z) : Z := (x + 2 ^ 31) mod 2 ^ 32 - 2 ^ 31.

(** The four mixing recurrences, on the running value [h], the character
    code [char] and the position [i]. *)
Definition mixForward (h char i : Z) : Z := Z.shiftl h 5 - h + char.
Definition mixPositional (h char i : Z) : Z := Z.shiftl h 7 - h + char + i.
Definition mixReverse (h char i : Z) : Z := Z.shiftl h 3 - h + char * (i + 1).
Definition mixDJB2 (h char i : Z) : Z := Z.shiftl h 5 + h + char.

(** The characters of the input with their positions. *)
Fixpoint indexedFrom (i : nat) (str : list Z) : list (nat * Z) :=
  match str with
  | [] => []
  | char :: rest => (i, char) :: indexedFrom (S i) rest
  end.

Definition forward (str : list Z) : list (nat * Z) := indexedFrom 0 str.
Definition reverse (str : list Z) : list (nat * Z) := rev (indexedFrom 0 str).

(** A rolling hash: the recurrence applied along a traversal, truncated at
    every step.  The DJB2 pass starts from 5381, the other three from 0. *)
Definition rolling (mix : Z -> Z -> Z -> Z) (start : Z)
    (traversal : list (nat * Z)) : Z :=
  fold_left (fun h ic => trunc32 (mix h (snd ic) (Z.of_nat (fst ic))))
            traversal start.

(** The [k] low hex digits of [n], most significant first. *)
Fixpoint nibbles (k : nat) (n : Z) : string :=
  match k with
  | O => EmptyString
  | S k' => String (JS.hexDigit ((n / 16 ^ Z.of_nat k') mod 16)) (nibbles k' n)
  end.

(** Absolute value, eight hex digits, zero-padded on the left. *)
Definition render (h : Z) : string := nibbles 8 (Z.abs h).

Definition fallbackDigest (str : list Z) : string :=
  render (rolling mixForward 0 (forward str))
  ++ render (rolling mixPositional 0 (forward str))
  ++ render (rolling mixReverse 0 (reverse str))
  ++ render (rolling mixDJB2 5381 (forward str)).

End Reference.

(** [[0-9a-f]] *)
Definition isLowerHex (c : ascii) : bool :=
  let n := N_of_ascii c in
  ((48 <=? n) && (n <=? 57) || (97 <=? n) && (n <=? 102))%N.

(** The position and code read at index [i]. *)
Definition readAt (str : list Z) (i : nat) : nat * Z :=
  (i, match JS.charCodeAt str i with Some c => c | None => 0 end).

(** ** The parsers as the specification words them *)

Module ParserSpec.

(** The ordered classification table: the alternatives of each pattern and
    the tag it yields. *)
Definition platformPatterns : list (list string * string) :=
  [ (["android"], "android");
    (["iphone"; "ipad"; "ipod"], "ios");
    (["macintosh"; "mac os"], "macos");
    (["windows"], "windows");
    (["linux"], "linux") ].

(** First match wins over the lower-cased user agent; no match is "web". *)
Definition classifyPlatform (userAgentString : string) : string :=
  let lowered := JS.toLowerCase userAgentString in
  match find (fun entry => JS.test (fst entry) lowered) platformPatterns with
  | Some entry => snd entry
  | None => "web"
  end.

(** The four version patterns, in order. *)
Definition versionPatterns : list JS.VersionRegExp :=
  [re_Android; re_OS; re_WindowsNT; re_MacOSX].

(** The captured group of the first pattern that matches. *)
Fixpoint firstMatch (patterns : list JS.VersionRegExp) (ua : string) : option string :=
  match patterns with
  | [] => None
  | re :: rest =>
      match JS.match_ ua re with
      | Some group => Some group
      | None => firstMatch rest ua
      end
  end.

Definition extractOSVersion (userAgentString : string) : string :=
  match firstMatch versionPatterns userAgentString with
  | Some group => JS.replaceUnderscores group
  | None => "unknown"
  end.

End ParserSpec.

(** [lit] occurs in [str]. *)
Definition Substring (lit str : string) : Prop :=
  exists before after, str = before ++ lit ++ after.

(** ** Notions used to state further properties *)

(** The lower-cased user agent mentions [lit]. *)
Definition mentions (ua lit : string) : Prop :=
  Substring lit (JS.toLowerCase ua).

(** The six tags of [getPlatformType]. *)
Definition platformTags : list string :=
  ["android"; "ios"; "macos"; "windows"; "linux"; "web"].

(** A dotted version: not empty, digits and dots only. *)
Definition versionShape (s : string) : bool :=
  negb (s =? "")%string && forallb JS.digitOrDot (list_ascii_of_string s).

(** The rolling hashes without any truncation, the shifts written as the
    multiplications they stand for. *)
Module Polynomial.

Definition horner (multiplier start : Z) (str : list Z) : Z :=
  fold_left (fun h char => multiplier * h + char) str start.

Definition positional (h char i : Z) : Z := 127 * h + char + i.
Definition reverse (h char i : Z) : Z := 7 * h + char * (i + 1).

Definition exact (mix : Z -> Z -> Z -> Z) (start : Z)
    (traversal : list (nat * Z)) : Z :=
  fold_left (fun h ic => mix h (snd ic) (Z.of_nat (fst ic))) traversal start.

End Polynomial.

(** No ["|"] in [s]. *)
Definition delimiterFree (s : string) : bool :=
  forallb (fun c => negb (Ascii.eqb c "|")) (list_ascii_of_string s).

(** What [join] makes of the eight elements of the array in
    [generateHash]. *)
Definition fieldStrings {number} `{JSNumber number}
    (params : Params number) (platform : value number) : list string :=
  map joinElement
      [devicePlatform params; osVersion params; screenWidth params;
       screenHeight params; pixelRatio params; timezone params;
       language params; platform].

(** A missing or [null] value replaced by the empty string. *)
Definition blankMissing {number} (v : value number) : value number :=
  match v with
  | VUndefined | VNull => VString ""
  | _ => v
  end.

(** The empty parameter object [{}]. *)
Definition noParams {number} : Params number :=
  {| devicePlatform := VUndefined; osVersion := VUndefined;
     screenWidth := VUndefined; screenHeight := VUndefined;
     pixelRatio := VUndefined; timezone := VUndefined;
     language := VUndefined; platform := VUndefined |}.

(** A secure-context browser whose [digest] resolves; the buffer it gives
    back is the data it was handed. *)
Definition host_resolving : Host Z :=
  {| navigator_userAgent := ua_macos;
     navigator_language := VString "en-US";
     screen_width := VNumber 1440;
     screen_height := VNumber 900;
     window_devicePixelRatio := VUndefined;
     resolved_timeZone := VString "America/New_York";
     crypto_subtle := Some (fun _ data => Normal data) |}.

(** The user agent holds a version token of [re]: its literal, one white
    space character and at least one character of its class. *)
Definition hasToken (re : JS.VersionRegExp) (ua : string) : Prop :=
  exists before ws d after,
    ua = before ++ JS.literal re ++ String ws (String d after)
    /\ JS.isSpace ws = true /\ JS.class re d = true.

(** * Properties *)

(** ** The model on concrete inputs *)

Example parse_macos :
  (getPlatformType ua_macos, getOSVersion ua_macos) = ("macos", "10.15.7").
Proof. vm_compute. reflexivity. Qed.

Example parse_iphone :
  (getPlatformType ua_iphone, getOSVersion ua_iphone) = ("ios", "14.0").
Proof. vm_compute. reflexivity. Qed.

Example parse_android :
  (getPlatformType ua_android, getOSVersion ua_android) = ("android", "10").
Proof. vm_compute. reflexivity. Qed.

Example parse_windows :
  (getPlatformType ua_windows, getOSVersion ua_windows) = ("windows", "10.0").
Proof. vm_compute. reflexivity. Qed.

Example parse_other :
  (getPlatformType "curl/8.0", getOSVersion "curl/8.0") = ("web", "unknown").
Proof. vm_compute. reflexivity. Qed.

Example simpleHash_empty : simpleHash (JS.codeUnits "") = "00000000000000000000000000001505".
Proof. vm_compute. reflexivity. Qed.

Example simpleHash_a : simpleHash (JS.codeUnits "a") = "0000006100000061000000610002b606".
Proof. vm_compute. reflexivity. Qed.

(** ** Properties of the int32 arithmetic *)

Lemma ToInt32_range (x : Z) : - 2 ^ 31 <= JS.ToInt32 x < 2 ^ 31.
Proof.
  unfold JS.ToInt32.
  pose proof (Z.mod_pos_bound x (2 ^ 32) ltac:(lia)) as Hm.
  cbv zeta. rewrite Z.geb_leb.
  destruct (Z.leb_spec (2 ^ 31) (x mod 2 ^ 32)); lia.
Qed.

Lemma ToInt32_decomp (x : Z) : exists k, JS.ToInt32 x = x + 2 ^ 32 * k.
Proof.
  unfold JS.ToInt32. cbv zeta. rewrite Z.geb_leb.
  pose proof (Z.div_mod x (2 ^ 32) ltac:(lia)) as Hd.
  destruct (Z.leb_spec (2 ^ 31) (x mod 2 ^ 32)).
  - exists (- (x / 2 ^ 32) - 1). lia.
  - exists (- (x / 2 ^ 32)). lia.
Qed.

Lemma ToInt32_congr (a b k : Z) :
  a = b + 2 ^ 32 * k -> JS.ToInt32 a = JS.ToInt32 b.
Proof.
  intros ->. unfold JS.ToInt32.
  rewrite (Z.mul_comm (2 ^ 32) k), Z.mod_add by lia. reflexivity.
Qed.

Lemma ToInt32_fixed (x : Z) : - 2 ^ 31 <= x < 2 ^ 31 -> JS.ToInt32 x = x.
Proof.
  intros Hx. destruct (ToInt32_decomp x) as [k Hk].
  pose proof (ToInt32_range x). lia.
Qed.

Lemma ToInt32_trunc32 (x : Z) : JS.ToInt32 x = Reference.trunc32 x.
Proof.
  destruct (ToInt32_decomp x) as [k Hk].
  pose proof (ToInt32_range x) as Hr.
  unfold Reference.trunc32.
  pose proof (Z.div_mod (x + 2 ^ 31) (2 ^ 32) ltac:(lia)) as Hd.
  pose proof (Z.mod_pos_bound (x + 2 ^ 31) (2 ^ 32) ltac:(lia)) as Hm.
  lia.
Qed.

Lemma band_diag (x : Z) : JS.band x x = JS.ToInt32 x.
Proof.
  unfold JS.band. rewrite Z.land_diag.
  apply ToInt32_fixed, ToInt32_range.
Qed.

Lemma shl_decomp (h n : Z) :
  0 <= n < 32 -> exists k, JS.shl h n = Z.shiftl h n + 2 ^ 32 * k.
Proof.
  intros Hn. unfold JS.shl.
  replace (Z.land n 31) with n.
  2:{ change 31 with (Z.ones 5). rewrite Z.land_ones by lia.
      symmetry. apply Z.mod_small. change (2 ^ 5) with 32. lia. }
  destruct (ToInt32_decomp h) as [k1 Hk1].
  destruct (ToInt32_decomp (Z.shiftl (JS.ToInt32 h) n)) as [k2 Hk2].
  rewrite Hk2, Hk1, !Z.shiftl_mul_pow2 by lia.
  exists (k1 * 2 ^ n + k2). ring.
Qed.

(** Each loop body computes its recurrence, truncated. *)

Ltac int32_step n :=
  let k := fresh "k" in
  let Hk := fresh "Hk" in
  rewrite band_diag, <- ToInt32_trunc32;
  match goal with
  | |- context [JS.shl ?h n] =>
      destruct (shl_decomp h n ltac:(lia)) as [k Hk];
      apply ToInt32_congr with k; rewrite Hk
  end.

Lemma pass1_body_step (str : list Z) (h : Z) (i : nat) (c : Z) :
  JS.charCodeAt str i = Some c ->
  pass1_body str h i = Reference.trunc32 (Reference.mixForward h c (Z.of_nat i)).
Proof.
  intros Hc. unfold pass1_body, Reference.mixForward. rewrite Hc. cbv zeta.
  int32_step 5. ring.
Qed.

Lemma pass2_body_step (str : list Z) (h : Z) (i : nat) (c : Z) :
  JS.charCodeAt str i = Some c ->
  pass2_body str h i = Reference.trunc32 (Reference.mixPositional h c (Z.of_nat i)).
Proof.
  intros Hc. unfold pass2_body, Reference.mixPositional. rewrite Hc. cbv zeta.
  int32_step 7. ring.
Qed.

Lemma pass3_body_step (str : list Z) (h : Z) (i : nat) (c : Z) :
  JS.charCodeAt str i = Some c ->
  pass3_body str h i = Reference.trunc32 (Reference.mixReverse h c (Z.of_nat i)).
Proof.
  intros Hc. unfold pass3_body, Reference.mixReverse. rewrite Hc. cbv zeta.
  int32_step 3. ring.
Qed.

Lemma pass4_body_step (str : list Z) (h : Z) (i : nat) (c : Z) :
  JS.charCodeAt str i = Some c ->
  pass4_body str h i = Reference.trunc32 (Reference.mixDJB2 h c (Z.of_nat i)).
Proof.
  intros Hc. unfold pass4_body, Reference.mixDJB2. rewrite Hc. cbv zeta.
  int32_step 5. ring.
Qed.

(** Reading the string by index agrees with walking it. *)

Lemma nth_error_indexedFrom (str : list Z) :
  forall j i,
    nth_error (Reference.indexedFrom j str) i
    = option_map (fun c => ((j + i)%nat, c)) (JS.charCodeAt str i).
Proof.
  unfold JS.charCodeAt.
  induction str as [| a rest IH]; intros j i.
  - destruct i; reflexivity.
  - destruct i as [| i]; simpl.
    + rewrite Nat.add_0_r. reflexivity.
    + rewrite IH, Nat.add_succ_r. reflexivity.
Qed.

Lemma charCodeAt_in_range (str : list Z) (i : nat) :
  (i < JS.length str)%nat -> exists c, JS.charCodeAt str i = Some c.
Proof.
  unfold JS.charCodeAt, JS.length. intros Hi.
  destruct (nth_error str i) as [c |] eqn:Hnth; [eauto |].
  apply nth_error_None in Hnth. lia.
Qed.

Lemma charCodeAt_out_of_range (str : list Z) (i : nat) :
  (JS.length str <= i)%nat -> JS.charCodeAt str i = None.
Proof. unfold JS.charCodeAt, JS.length. apply nth_error_None. Qed.

Lemma map_readAt_upIndices (str : list Z) :
  map (readAt str) (upIndices str) = Reference.forward str.
Proof.
  apply nth_error_ext. intros n.
  unfold upIndices, Reference.forward.
  rewrite nth_error_map, nth_error_seq, nth_error_indexedFrom.
  destruct (Nat.ltb_spec n (JS.length str)) as [Hlt | Hge]; simpl.
  - unfold readAt. destruct (charCodeAt_in_range str n Hlt) as [c ->].
    reflexivity.
  - rewrite (charCodeAt_out_of_range str n Hge). reflexivity.
Qed.

Lemma map_readAt_downIndices (str : list Z) :
  map (readAt str) (downIndices str) = Reference.reverse str.
Proof.
  unfold downIndices, Reference.reverse.
  rewrite map_rev. f_equal. apply map_readAt_upIndices.
Qed.

Section Loops.

Variable str : list Z.
Variable body : Z -> nat -> Z.
Variable mix : Z -> Z -> Z -> Z.
Hypothesis body_step :
  forall h i c, JS.charCodeAt str i = Some c ->
    body h i = Reference.trunc32 (mix h c (Z.of_nat i)).

Lemma loop_rolling (indices : list nat) :
  (forall i, In i indices -> (i < JS.length str)%nat) ->
  forall start,
    fold_left body indices start
    = Reference.rolling mix start (map (readAt str) indices).
Proof.
  unfold Reference.rolling.
  induction indices as [| i rest IH]; intros Hin start; [reflexivity |].
  simpl. rewrite <- IH by (intros; apply Hin; now right).
  f_equal. unfold readAt.
  destruct (charCodeAt_in_range str i (Hin i (or_introl eq_refl))) as [c Hc].
  rewrite Hc. simpl. apply body_step, Hc.
Qed.

End Loops.

Lemma upIndices_in_range (str : list Z) (i : nat) :
  In i (upIndices str) -> (i < JS.length str)%nat.
Proof. unfold upIndices. rewrite in_seq. lia. Qed.

Lemma downIndices_in_range (str : list Z) (i : nat) :
  In i (downIndices str) -> (i < JS.length str)%nat.
Proof. unfold downIndices. rewrite <- in_rev, in_seq. lia. Qed.

Lemma loop1_rolling (str : list Z) :
  loop1 str = Reference.rolling Reference.mixForward 0 (Reference.forward str).
Proof.
  unfold loop1. rewrite <- map_readAt_upIndices.
  apply loop_rolling; [apply pass1_body_step | apply upIndices_in_range].
Qed.

Lemma loop2_rolling (str : list Z) :
  loop2 str = Reference.rolling Reference.mixPositional 0 (Reference.forward str).
Proof.
  unfold loop2. rewrite <- map_readAt_upIndices.
  apply loop_rolling; [apply pass2_body_step | apply upIndices_in_range].
Qed.

Lemma loop3_rolling (str : list Z) :
  loop3 str = Reference.rolling Reference.mixReverse 0 (Reference.reverse str).
Proof.
  unfold loop3. rewrite <- map_readAt_downIndices.
  apply loop_rolling; [apply pass3_body_step | apply downIndices_in_range].
Qed.

Lemma loop4_rolling (str : list Z) :
  loop4 str = Reference.rolling Reference.mixDJB2 5381 (Reference.forward str).
Proof.
  unfold loop4. rewrite <- map_readAt_upIndices.
  apply loop_rolling; [apply pass4_body_step | apply upIndices_in_range].
Qed.

(** Every rolling hash is a signed 32-bit integer. *)

Lemma trunc32_range (x : Z) : - 2 ^ 31 <= Reference.trunc32 x < 2 ^ 31.
Proof. rewrite <- ToInt32_trunc32. apply ToInt32_range. Qed.

Lemma rolling_range (mix : Z -> Z -> Z -> Z) (traversal : list (nat * Z)) :
  forall start,
    - 2 ^ 31 <= start < 2 ^ 31 ->
    - 2 ^ 31 <= Reference.rolling mix start traversal < 2 ^ 31.
Proof.
  unfold Reference.rolling.
  induction traversal as [| ic rest IH]; intros start Hs; simpl; [exact Hs |].
  apply IH, trunc32_range.
Qed.

(** ** Properties of the hex rendering *)

Lemma length_append (s t : string) :
  String.length (s ++ t) = (String.length s + String.length t)%nat.
Proof. induction s as [| c s IH]; simpl; [reflexivity | now rewrite IH]. Qed.

Lemma append_assoc (s t u : string) : (s ++ t) ++ u = s ++ (t ++ u).
Proof. induction s as [| c s IH]; simpl; [reflexivity | now rewrite IH]. Qed.

Lemma list_ascii_of_string_append (s t : string) :
  list_ascii_of_string (s ++ t)
  = (list_ascii_of_string s ++ list_ascii_of_string t)%list.
Proof. induction s as [| c s IH]; simpl; [reflexivity | now rewrite IH]. Qed.

Lemma hexDigits_unfold (n : Z) :
  JS.hexDigits n
  = if Z_lt_dec n 16 then String (JS.hexDigit n) EmptyString
    else JS.hexDigits (n / 16) ++ String (JS.hexDigit (n mod 16)) EmptyString.
Proof.
  rewrite JS.hexDigits_equation_1.
  destruct (Z_lt_dec n 16); reflexivity.
Qed.

Lemma pow16_succ (k : nat) : 16 ^ Z.of_nat (S k) = 16 * 16 ^ Z.of_nat k.
Proof. rewrite Nat2Z.inj_succ, Z.pow_succ_r by lia. reflexivity. Qed.

Lemma hexDigits_length (k : nat) :
  forall n, 0 <= n < 16 ^ Z.of_nat (S k) ->
    (1 <= String.length (JS.hexDigits n) <= S k)%nat.
Proof.
  induction k as [| k IH]; intros n Hn; rewrite hexDigits_unfold;
    destruct (Z_lt_dec n 16) as [Hlt | Hge]; simpl; try lia.
  rewrite length_append. simpl.
  assert (0 <= n / 16 < 16 ^ Z.of_nat (S k)) as Hq.
  { rewrite pow16_succ in Hn. split.
    - apply Z.div_pos; lia.
    - apply Z.div_lt_upper_bound; lia. }
  specialize (IH _ Hq). lia.
Qed.

Lemma filler_zero_any (m : nat) :
  JS.filler m "0" "" = JS.filler m "0" "0".
Proof. destruct m; reflexivity. Qed.

Lemma filler_zero_succ (m : nat) :
  JS.filler (S m) "0" "0" = String "0" (JS.filler m "0" "0").
Proof. simpl. now rewrite filler_zero_any. Qed.

Lemma nibbles_zero (m : nat) : Reference.nibbles m 0 = JS.filler m "0" "0".
Proof.
  induction m as [| m IH]; [reflexivity |].
  rewrite filler_zero_succ, <- IH. simpl Reference.nibbles.
  rewrite Zdiv_0_l. reflexivity.
Qed.

Lemma nibbles_snoc (k : nat) (n : Z) :
  0 <= n ->
  Reference.nibbles (S k) n
  = Reference.nibbles k (n / 16) ++ String (JS.hexDigit (n mod 16)) EmptyString.
Proof.
  intros Hn. induction k as [| k IH].
  - simpl. rewrite Z.div_1_r. reflexivity.
  - change (Reference.nibbles (S (S k)) n)
      with (String (JS.hexDigit ((n / 16 ^ Z.of_nat (S k)) mod 16))
                   (Reference.nibbles (S k) n)).
    rewrite IH. simpl Reference.nibbles. simpl append.
    rewrite pow16_succ, Z.div_div by lia. reflexivity.
Qed.

Lemma nibbles_length (k : nat) (n : Z) :
  String.length (Reference.nibbles k n) = k.
Proof. induction k as [| k IH]; simpl; [reflexivity | now rewrite IH]. Qed.

Lemma padStart_zero (s : string) (t : nat) :
  (String.length s <= t)%nat ->
  JS.padStart s t "0" = JS.filler (t - String.length s) "0" "0" ++ s.
Proof.
  intros Hle. unfold JS.padStart.
  destruct (Nat.leb_spec t (String.length s)) as [Hge | Hlt]; [| reflexivity].
  replace (t - String.length s)%nat with 0%nat by lia. reflexivity.
Qed.

Lemma filler_zero_length (m : nat) : String.length (JS.filler m "0" "0") = m.
Proof. rewrite <- nibbles_zero. apply nibbles_length. Qed.

(** Padding the digits of [n] to [S k] places gives its [S k] low hex
    digits, when [n] has no more than that. *)
Lemma padStart_hexDigits (k : nat) :
  forall n, 0 <= n < 16 ^ Z.of_nat (S k) ->
    JS.padStart (JS.hexDigits n) (S k) "0" = Reference.nibbles (S k) n.
Proof.
  induction k as [| k IH]; intros n Hn;
    pose proof (hexDigits_length _ n Hn) as Hlen;
    rewrite padStart_zero by lia;
    rewrite nibbles_snoc by lia;
    rewrite hexDigits_unfold in *;
    destruct (Z_lt_dec n 16) as [Hlt | Hge].
  - rewrite Z.div_small, Z.mod_small by lia. reflexivity.
  - change (16 ^ Z.of_nat 1) with 16 in Hn. lia.
  - rewrite Z.div_small, Z.mod_small, nibbles_zero by lia. reflexivity.
  - assert (0 <= n / 16 < 16 ^ Z.of_nat (S k)) as Hq.
    { rewrite pow16_succ in Hn. split.
      - apply Z.div_pos; lia.
      - apply Z.div_lt_upper_bound; lia. }
    rewrite <- (IH _ Hq).
    pose proof (hexDigits_length _ _ Hq) as Hlen'.
    rewrite padStart_zero by lia.
    rewrite length_append in *. simpl String.length in *.
    rewrite append_assoc.
    replace (S (S k) - (String.length (JS.hexDigits (n / 16)) + 1))%nat
      with (S k - String.length (JS.hexDigits (n / 16)))%nat by lia.
    reflexivity.
Qed.

Lemma abs_int32 (h : Z) :
  - 2 ^ 31 <= h < 2 ^ 31 -> 0 <= JS.Math_abs h < 16 ^ Z.of_nat 8.
Proof. unfold JS.Math_abs. change (16 ^ Z.of_nat 8) with (2 ^ 32). lia. Qed.

Lemma toString16_nonneg (n : Z) : 0 <= n -> JS.toString16 n = JS.hexDigits n.
Proof.
  intros Hn. unfold JS.toString16.
  destruct (Z.ltb_spec n 0); [lia | reflexivity].
Qed.

Lemma hex8_render (h : Z) :
  - 2 ^ 31 <= h < 2 ^ 31 -> hex8 h = Reference.render h.
Proof.
  intros Hh. pose proof (abs_int32 h Hh) as Ha.
  unfold hex8, Reference.render.
  rewrite toString16_nonneg by lia.
  apply (padStart_hexDigits 7), Ha.
Qed.

Lemma hexDigit_isLowerHex (d : Z) : isLowerHex (JS.hexDigit d) = true.
Proof.
  unfold JS.hexDigit. generalize (Z.to_nat d) as n. intros n.
  do 16 (destruct n as [| n]; [reflexivity |]). reflexivity.
Qed.

Lemma nibbles_isLowerHex (k : nat) (n : Z) :
  forallb isLowerHex (list_ascii_of_string (Reference.nibbles k n)) = true.
Proof.
  induction k as [| k IH]; simpl; [reflexivity |].
  rewrite hexDigit_isLowerHex, IH. reflexivity.
Qed.

Lemma loop1_range (str : list Z) : - 2 ^ 31 <= loop1 str < 2 ^ 31.
Proof. rewrite loop1_rolling. apply rolling_range. lia. Qed.

Lemma loop2_range (str : list Z) : - 2 ^ 31 <= loop2 str < 2 ^ 31.
Proof. rewrite loop2_rolling. apply rolling_range. lia. Qed.

Lemma loop3_range (str : list Z) : - 2 ^ 31 <= loop3 str < 2 ^ 31.
Proof. rewrite loop3_rolling. apply rolling_range. lia. Qed.

Lemma loop4_range (str : list Z) : - 2 ^ 31 <= loop4 str < 2 ^ 31.
Proof. rewrite loop4_rolling. apply rolling_range. lia. Qed.

Lemma hex8_shape (h : Z) :
  - 2 ^ 31 <= h < 2 ^ 31 ->
  (String.length (JS.toString16 (JS.Math_abs h)) <= 8)%nat
  /\ String.length (hex8 h) = 8%nat
  /\ forallb isLowerHex (list_ascii_of_string (hex8 h)) = true.
Proof.
  intros Hh. pose proof (abs_int32 h Hh) as Ha. repeat split.
  - rewrite toString16_nonneg by lia.
    apply (hexDigits_length 7), Ha.
  - rewrite hex8_render by exact Hh. apply nibbles_length.
  - rewrite hex8_render by exact Hh. apply nibbles_isLowerHex.
Qed.

(** ** The fallback digest: claims *)

(** C3. For every input string, given by its code units, the fallback
    digest [simpleHash] equals the reference definition: four 32-bit
    rolling hashes (forward with [(h<<5) - h + char], forward with
    [(h<<7) - h + char + i], reverse with [(h<<3) - h + char*(i+1)],
    forward DJB2 [(h<<5) + h + char] from 5381), each truncated at every
    step, rendered as the eight zero-padded lowercase hex digits of its
    absolute value, concatenated in that order. *)
Theorem simpleHash_refines_fallbackDigest (str : list Z) :
  simpleHash str = Reference.fallbackDigest str.
Proof.
  unfold simpleHash, Reference.fallbackDigest. cbv zeta.
  rewrite (hex8_render _ (loop1_range str)), (hex8_render _ (loop2_range str)),
    (hex8_render _ (loop3_range str)), (hex8_render _ (loop4_range str)).
  rewrite loop1_rolling, loop2_rolling, loop3_rolling, loop4_rolling.
  reflexivity.
Qed.

(** C7. For every input string, the empty one included, the fallback
    digest has length exactly 32 and consists of lowercase hex digits; each
    of the four pass values, after the absolute value, renders to at most
    eight hex digits and is padded to exactly eight. *)
Theorem simpleHash_length_charset (str : list Z) :
  String.length (simpleHash str) = 32%nat
  /\ forallb isLowerHex (list_ascii_of_string (simpleHash str)) = true
  /\ Forall (fun h =>
              (String.length (JS.toString16 (JS.Math_abs h)) <= 8)%nat
              /\ String.length (hex8 h) = 8%nat)
            [loop1 str; loop2 str; loop3 str; loop4 str].
Proof.
  destruct (hex8_shape _ (loop1_range str)) as (D1 & L1 & C1).
  destruct (hex8_shape _ (loop2_range str)) as (D2 & L2 & C2).
  destruct (hex8_shape _ (loop3_range str)) as (D3 & L3 & C3).
  destruct (hex8_shape _ (loop4_range str)) as (D4 & L4 & C4).
  unfold simpleHash. cbv zeta. split; [| split].
  - rewrite !length_append, L1, L2, L3, L4. reflexivity.
  - rewrite !list_ascii_of_string_append, !forallb_app, C1, C2, C3, C4.
    reflexivity.
  - repeat (apply Forall_cons; [split; assumption |]). apply Forall_nil.
Qed.

(** ** Properties of the string primitives *)

Lemma prefix_append (lit rest : string) : String.prefix lit (lit ++ rest) = true.
Proof.
  induction lit as [| c lit IH]; simpl; [destruct rest; reflexivity |].
  destruct (ascii_dec c c) as [_ | Hne]; [exact IH | now elim Hne].
Qed.

Lemma includes_prefix (lit str : string) :
  String.prefix lit str = true -> JS.includes lit str = true.
Proof. intros Hp. destruct str; cbn [JS.includes]; now rewrite Hp. Qed.

Lemma includes_Substring (lit str : string) :
  Substring lit str -> JS.includes lit str = true.
Proof.
  intros (before & after & ->).
  induction before as [| c before IH].
  - cbn [append]. apply includes_prefix, prefix_append.
  - simpl append. simpl JS.includes. rewrite IH. apply orb_true_r.
Qed.

Lemma toLowerCase_append (s t : string) :
  JS.toLowerCase (s ++ t) = JS.toLowerCase s ++ JS.toLowerCase t.
Proof. induction s as [| c s IH]; simpl; [reflexivity | now rewrite IH]. Qed.

Lemma lowerChar_idempotent (c : ascii) :
  JS.lowerChar (JS.lowerChar c) = JS.lowerChar c.
Proof.
  destruct c as [b0 b1 b2 b3 b4 b5 b6 b7].
  destruct b0, b1, b2, b3, b4, b5, b6, b7; reflexivity.
Qed.

Lemma toLowerCase_idempotent (s : string) :
  JS.toLowerCase (JS.toLowerCase s) = JS.toLowerCase s.
Proof.
  induction s as [| c s IH]; simpl; [reflexivity |].
  now rewrite lowerChar_idempotent, IH.
Qed.

(** A literal in lower case survives the lower-casing of its context. *)
Lemma Substring_toLowerCase (lit str : string) :
  JS.toLowerCase lit = lit ->
  Substring lit str \/ Substring lit (JS.toLowerCase str) ->
  Substring lit (JS.toLowerCase str).
Proof.
  intros Hlit [(before & after & ->) | Hs]; [| exact Hs].
  exists (JS.toLowerCase before), (JS.toLowerCase after).
  now rewrite !toLowerCase_append, Hlit.
Qed.

Lemma takeWhile_forallb (p : ascii -> bool) (str : string) :
  forallb p (list_ascii_of_string (JS.takeWhile p str)) = true.
Proof.
  induction str as [| c str IH]; simpl; [reflexivity |].
  destruct (p c) eqn:Hp; simpl; [now rewrite Hp, IH | reflexivity].
Qed.

Lemma matchHere_class (re : JS.VersionRegExp) (str group : string) :
  JS.matchHere re str = Some group ->
  forallb (JS.class re) (list_ascii_of_string group) = true.
Proof.
  unfold JS.matchHere.
  destruct (String.prefix (JS.literal re) str); [| discriminate].
  destruct (JS.drop _ str) as [| c rest]; [discriminate |].
  destruct (JS.isSpace c); [| discriminate].
  pose proof (takeWhile_forallb (JS.class re) rest) as Hall.
  destruct (JS.takeWhile (JS.class re) rest); [discriminate |].
  intros [= <-]. exact Hall.
Qed.

Lemma match_class (re : JS.VersionRegExp) (str group : string) :
  JS.match_ str re = Some group ->
  forallb (JS.class re) (list_ascii_of_string group) = true.
Proof.
  induction str as [| c str IH]; simpl.
  - destruct (JS.matchHere re "") eqn:Hm; [| discriminate].
    intros [= <-]. eapply matchHere_class, Hm.
  - destruct (JS.matchHere re (String c str)) eqn:Hm; [| exact IH].
    intros [= <-]. eapply matchHere_class, Hm.
Qed.

(** A run of digits and dots holds no underscore to replace. *)
Lemma replaceUnderscores_digitOrDot (group : string) :
  forallb JS.digitOrDot (list_ascii_of_string group) = true ->
  JS.replaceUnderscores group = group.
Proof.
  induction group as [| c group IH]; simpl; [reflexivity |].
  intros [Hc Hrest]%andb_prop. rewrite (IH Hrest).
  destruct (Ascii.eqb_spec c "_"%char) as [-> | _]; [discriminate | reflexivity].
Qed.

Lemma firstMatch_nth (patterns : list JS.VersionRegExp) (ua : string) :
  forall k re group,
    nth_error patterns k = Some re ->
    (forall j re', (j < k)%nat -> nth_error patterns j = Some re' ->
                   JS.match_ ua re' = None) ->
    JS.match_ ua re = Some group ->
    ParserSpec.firstMatch patterns ua = Some group.
Proof.
  induction patterns as [| re0 rest IH]; intros k re group Hk Hbefore Hm.
  - destruct k; discriminate.
  - destruct k as [| k]; simpl in *.
    + injection Hk as ->. now rewrite Hm.
    + rewrite (Hbefore 0%nat re0 ltac:(lia) eq_refl).
      apply (IH k re group Hk); [| exact Hm].
      intros j re' Hj Hnth. apply (Hbefore (S j) re'); [lia | exact Hnth].
Qed.

Lemma firstMatch_none (patterns : list JS.VersionRegExp) (ua : string) :
  (forall re, In re patterns -> JS.match_ ua re = None) ->
  ParserSpec.firstMatch patterns ua = None.
Proof.
  induction patterns as [| re0 rest IH]; intros Hall; simpl; [reflexivity |].
  rewrite (Hall re0 (or_introl eq_refl)). apply IH.
  intros re Hin. apply Hall. now right.
Qed.

Lemma getOSVersion_extractOSVersion (ua : string) :
  getOSVersion ua = ParserSpec.extractOSVersion ua.
Proof.
  unfold getOSVersion, ParserSpec.extractOSVersion, ParserSpec.versionPatterns.
  cbv zeta. simpl ParserSpec.firstMatch.
  destruct (JS.match_ ua re_Android) as [g |] eqn:H1.
  { symmetry. apply replaceUnderscores_digitOrDot, (match_class re_Android ua), H1. }
  destruct (JS.match_ ua re_OS) as [g |] eqn:H2; [reflexivity |].
  destruct (JS.match_ ua re_WindowsNT) as [g |] eqn:H3.
  { symmetry. apply replaceUnderscores_digitOrDot, (match_class re_WindowsNT ua), H3. }
  destruct (JS.match_ ua re_MacOSX) as [g |] eqn:H4; reflexivity.
Qed.

(** ** User-agent parsing: claims *)

(** C5. Platform classification applies its patterns in the fixed order
    android, iphone/ipad/ipod (ios), macintosh/mac os (macos), windows,
    linux over the lower-cased user agent, first match wins, "web" when
    none matches; in particular a user agent that contains both "android"
    and "iphone" (as it stands or once lower-cased) is classified
    "android". *)
Theorem getPlatformType_first_match :
  (forall ua, getPlatformType ua = ParserSpec.classifyPlatform ua)
  /\ (forall ua,
        Substring "android" ua \/ Substring "android" (JS.toLowerCase ua) ->
        Substring "iphone" ua \/ Substring "iphone" (JS.toLowerCase ua) ->
        getPlatformType ua = "android").
Proof.
  split.
  - intros ua.
    unfold getPlatformType, ParserSpec.classifyPlatform, ParserSpec.platformPatterns.
    cbv zeta. cbn [find fst snd].
    repeat match goal with
           | |- context [JS.test ?alts ?s] => destruct (JS.test alts s)
           end; reflexivity.
  - intros ua Handroid _.
    apply (Substring_toLowerCase "android" ua eq_refl) in Handroid.
    unfold getPlatformType. cbv zeta.
    unfold JS.test at 1. cbn [existsb].
    now rewrite (includes_Substring _ _ Handroid).
Qed.

Lemma getPlatformType_first_match_witness :
  (Substring "android" "android iphone" \/
   Substring "android" (JS.toLowerCase "android iphone"))
  /\ (Substring "iphone" "android iphone" \/
      Substring "iphone" (JS.toLowerCase "android iphone"))
  /\ getPlatformType "android iphone" = "android".
Proof.
  assert (Substring "android" "android iphone") as Ha
    by (exists "", " iphone"; reflexivity).
  assert (Substring "iphone" "android iphone") as Hi
    by (exists "android ", ""; reflexivity).
  split; [left; exact Ha | split; [left; exact Hi |]].
  apply (proj2 getPlatformType_first_match "android iphone");
    left; assumption.
Defined.

(** C6. OS version extraction applies exactly four patterns in the order
    Android, generic OS, Windows NT, Mac OS X; it returns the captured
    group of the first pattern that matches, with underscores replaced by
    dots, whatever the later patterns would match, and "unknown" when none
    matches. *)
Theorem getOSVersion_first_match (ua : string) :
  getOSVersion ua = ParserSpec.extractOSVersion ua
  /\ List.length ParserSpec.versionPatterns = 4%nat
  /\ (forall k re group,
        nth_error ParserSpec.versionPatterns k = Some re ->
        (forall j re', (j < k)%nat ->
                       nth_error ParserSpec.versionPatterns j = Some re' ->
                       JS.match_ ua re' = None) ->
        JS.match_ ua re = Some group ->
        getOSVersion ua = JS.replaceUnderscores group)
  /\ ((forall re, In re ParserSpec.versionPatterns -> JS.match_ ua re = None) ->
      getOSVersion ua = "unknown").
Proof.
  split; [apply getOSVersion_extractOSVersion |].
  split; [reflexivity |].
  split.
  - intros k re group Hk Hbefore Hm.
    rewrite getOSVersion_extractOSVersion. unfold ParserSpec.extractOSVersion.
    now rewrite (firstMatch_nth _ ua k re group Hk Hbefore Hm).
  - intros Hnone.
    rewrite getOSVersion_extractOSVersion. unfold ParserSpec.extractOSVersion.
    now rewrite (firstMatch_none _ ua Hnone).
Qed.

(** C10. Platform classification does not depend on the letter case of the
    user agent: classifying a string and classifying its lower-cased form
    give the same tag.  OS version extraction has no such invariance. *)
Theorem getPlatformType_case_invariant :
  (forall ua, getPlatformType ua = getPlatformType (JS.toLowerCase ua))
  /\ (exists ua, getOSVersion ua <> getOSVersion (JS.toLowerCase ua)).
Proof.
  split.
  - intros ua. unfold getPlatformType.
    now rewrite toLowerCase_idempotent.
  - exists "Android 10". vm_compute. discriminate.
Qed.

(** ** Properties of the hasher *)

Section HasherProperties.

Context {number : Type} `{JSNumber number}.

Lemma outcome_bind_normal {A B} (m : Eff A) (k : A -> Eff B)
    (warnings : list string) (a : A) :
  m = (warnings, Normal a) -> outcome (bind m k) = outcome (k a).
Proof. intros ->. unfold bind, outcome. destruct (k a). reflexivity. Qed.

Lemma sha256_normal (host : Host number) (str : string) :
  exists warnings digest, sha256 host str = (warnings, Normal digest).
Proof.
  unfold sha256. destruct (crypto_subtle host) as [digest |].
  - destruct (digest "SHA-256" (TextEncoder_encode str)) as [buffer | e];
      simpl; eauto.
  - simpl; eauto.
Qed.

Lemma generateHash_outcome (host : Host number) (params : Params number) :
  outcome (generateHash host params)
  = outcome (sha256 host
       (fingerprintString params
          (coercePlatform (withDefault (platform params) (VString "admin"))))).
Proof.
  unfold generateHash, coercePlatform. cbv zeta.
  destruct (strictNotEqual _ "admin" && strictNotEqual _ "shell");
    exact (outcome_bind_normal _
             (fun q => sha256 host (fingerprintString params q)) _ _ eq_refl).
Qed.

Lemma fingerprintString_spread (r : Params number) (p q : value number) :
  fingerprintString (spread r p) q = fingerprintString r q.
Proof. reflexivity. Qed.

Lemma coercePlatform_invalid (p : value number) :
  p <> VString "admin" -> p <> VString "shell" ->
  coercePlatform (withDefault p (VString "admin")) = VString "admin".
Proof.
  intros Ha Hs. destruct p as [| | b | n | s]; try reflexivity.
  unfold coercePlatform. simpl.
  destruct (String.eqb_spec s "admin") as [-> | _]; [now elim Ha |].
  destruct (String.eqb_spec s "shell") as [-> | _]; [now elim Hs |].
  reflexivity.
Qed.

Lemma coercePlatform_valid (p : value number) :
  p = VUndefined \/ p = VString "admin" \/ p = VString "shell" ->
  coercePlatform (withDefault p (VString "admin"))
  = withDefault p (VString "admin").
Proof. intros [-> | [-> | ->]]; reflexivity. Qed.

(** C2. For every attribute record and every platform value other than
    "admin" and "shell", a missing one included, [generateHash] returns the
    digest it returns for platform "admin"; the value is coerced, the call
    is not rejected. *)
Theorem generateHash_coerces_platform
    (host : Host number) (r : Params number) (p : value number) :
  p <> VString "admin" -> p <> VString "shell" ->
  outcome (generateHash host (spread r p))
  = outcome (generateHash host (spread r (VString "admin")))
  /\ exists digest, outcome (generateHash host (spread r p)) = Normal digest.
Proof.
  intros Ha Hs.
  assert (outcome (generateHash host (spread r p))
          = outcome (sha256 host (fingerprintString r (VString "admin")))) as Hp.
  { rewrite generateHash_outcome. simpl platform.
    now rewrite (coercePlatform_invalid p Ha Hs), fingerprintString_spread. }
  split.
  - rewrite Hp, generateHash_outcome. reflexivity.
  - rewrite Hp. destruct (sha256_normal host (fingerprintString r (VString "admin")))
      as (warnings & digest & ->). now exists digest.
Qed.

(** C4. When the cryptographic primitive is unavailable, or invoking it
    raises an error, [sha256] warns and returns the fallback digest of its
    input; in every host it returns some digest and raises nothing. *)
Theorem sha256_falls_back (host : Host number) (str : string) :
  (crypto_subtle host = None ->
   sha256 host str = ([warn_unavailable], Normal (simpleHash (JS.codeUnits str))))
  /\ (forall digest e,
        crypto_subtle host = Some digest ->
        digest "SHA-256" (TextEncoder_encode str) = Throw e ->
        sha256 host str = ([warn_failed], Normal (simpleHash (JS.codeUnits str))))
  /\ (exists warnings digest, sha256 host str = (warnings, Normal digest)).
Proof.
  split; [| split].
  - intros Hnone. unfold sha256. rewrite Hnone. reflexivity.
  - intros digest e Hsome Hthrow. unfold sha256. rewrite Hsome, Hthrow.
    reflexivity.
  - apply sha256_normal.
Qed.

(** Replacing a Number by its string does not change what [join] sees. *)
Lemma joinElement_stringifyNumber (v : value number) :
  joinElement (stringifyNumber v) = joinElement v.
Proof. destruct v as [| | [|] | n | s]; reflexivity. Qed.

Lemma numericHead_not_platform (s : string) :
  numericHead s = true -> s <> "admin" /\ s <> "shell".
Proof. intros Hh. split; intros ->; discriminate. Qed.

Lemma coercePlatform_stringifyNumber (v : value number) :
  coercePlatform (withDefault (stringifyNumber v) (VString "admin"))
  = coercePlatform (withDefault v (VString "admin")).
Proof.
  destruct v as [| | b | n | s]; try reflexivity.
  destruct (numericHead_not_platform _ (numberToString_head n)) as [Ha Hs].
  unfold stringifyNumber.
  rewrite (coercePlatform_invalid (VString (numberToString n))) by congruence.
  rewrite (coercePlatform_invalid (VNumber n)) by discriminate.
  reflexivity.
Qed.

Lemma generateHash_stringifyNumber
    (host : Host number) (r : Params number) (f : field) :
  outcome (generateHash host (setField f (stringifyNumber (getField f r)) r))
  = outcome (generateHash host r).
Proof.
  rewrite !generateHash_outcome. f_equal. f_equal.
  unfold fingerprintString, Array_join. f_equal.
  destruct f; simpl;
    rewrite ?joinElement_stringifyNumber, ?coercePlatform_stringifyNumber;
    reflexivity.
Qed.

(** C1, amended. For every platform argument, [getFingerprint] returns a
    result whose attributes are the collected ones with the platform
    attached and whose hash is the digest of the seven collected fields
    joined with the coerced platform; when the argument is "admin",
    "shell" or omitted, that is the digest of the eight returned fields
    joined with "|". *)
Theorem getFingerprint_consistent (host : Host number) (p : value number) :
  exists warnings result,
    getFingerprint host p = (warnings, Normal result)
    /\ attributes result
       = spread (collectAttributes host) (withDefault p (VString "admin"))
    /\ outcome (sha256 host
          (fingerprintString (attributes result)
             (coercePlatform (platform (attributes result)))))
       = Normal (hash result)
    /\ (validPlatform p ->
        outcome (sha256 host (canonicalize (attributes result)))
        = Normal (hash result)).
Proof.
  unfold getFingerprint. cbv zeta.
  set (platform0 := withDefault p (VString "admin")).
  set (attrs := spread (collectAttributes host) platform0).
  pose proof (generateHash_outcome host attrs) as Hout.
  assert (withDefault platform0 (VString "admin") = platform0) as Hdef
    by (subst platform0; destruct p; reflexivity).
  simpl platform in Hout. rewrite Hdef in Hout.
  destruct (generateHash host attrs) as [warnings [digest | e]] eqn:Hrun.
  - exists (warnings ++ [])%list,
      {| attributes := attrs; hash := digest |}.
    split; [reflexivity |]. split; [reflexivity |].
    simpl attributes. simpl hash. split.
    + symmetry. exact Hout.
    + intros Hvalid. unfold canonicalize. simpl platform.
      pose proof (coercePlatform_valid p Hvalid) as Hc.
      fold platform0 in Hc. rewrite Hc in Hout. symmetry. exact Hout.
  - exfalso.
    destruct (sha256_normal host
                (fingerprintString attrs (coercePlatform platform0)))
      as (w & d & Hsha).
    rewrite Hsha in Hout. discriminate.
Qed.

End HasherProperties.

(** ** The hasher on concrete hosts *)

Lemma bind_ret {A B} (a : A) (k : A -> Eff B) : bind (ret a) k = k a.
Proof. unfold bind, ret. destruct (k a). reflexivity. Qed.

(** C8. For the record of the end-to-end example the canonical string, the
    one [generateHash] hands to the digest, is exactly
    "macos|10.15.7|1440|900|2|America/New_York|en-US|admin". *)
Theorem canonical_string_example :
  canonicalize example_params
  = "macos|10.15.7|1440|900|2|America/New_York|en-US|admin"
  /\ forall host : Host Z,
       generateHash host example_params
       = sha256 host "macos|10.15.7|1440|900|2|America/New_York|en-US|admin".
Proof.
  split; [vm_compute; reflexivity |].
  intros host.
  change (generateHash host example_params)
    with (bind (ret (VString "admin"))
               (fun q => sha256 host (fingerprintString example_params q))).
  rewrite bind_ret. f_equal.
Qed.

(** C9. [generateHash] does not tell a Number from the string of its
    standard conversion: replacing the value of any field by that string
    leaves the digest unchanged, since every field is stringified before
    joining; so distinct typed records with one canonical string share
    their digest. *)
Theorem generateHash_number_string_blind :
  (forall (number : Type) (N : JSNumber number)
          (host : Host number) (r : Params number) (f : field),
      outcome (generateHash host (setField f (stringifyNumber (getField f r)) r))
      = outcome (generateHash host r))
  /\ (exists r1 r2 : Params Z,
        r1 <> r2
        /\ canonicalize r1 = canonicalize r2
        /\ forall host, outcome (generateHash host r1) = outcome (generateHash host r2)).
Proof.
  split.
  - intros number N host r f. apply generateHash_stringifyNumber.
  - exists example_params,
      (setField FScreenWidth (stringifyNumber (getField FScreenWidth example_params))
                example_params).
    split; [discriminate |]. split; [vm_compute; reflexivity |].
    intros host. symmetry. apply generateHash_stringifyNumber.
Qed.

(** C1, as stated, fails: with the platform argument "bogus" on a host
    without [crypto.subtle], the returned attributes carry "bogus" while
    the hash is the digest of the string that ends in "admin". *)
Lemma getFingerprint_invalid_platform_inconsistent :
  exists warnings result,
    getFingerprint host_insecure (VString "bogus") = (warnings, Normal result)
    /\ platform (attributes result) = VString "bogus"
    /\ hash result = "3dd42917187b287d41bb379f6643214a"
    /\ outcome (sha256 host_insecure (canonicalize (attributes result)))
       = Normal "3dc1268e07a34e1476361783665b2a01"
    /\ outcome (sha256 host_insecure (canonicalize (attributes result)))
       <> Normal (hash result).
Proof.
  eexists. eexists.
  split; [vm_compute; reflexivity |].
  split; [reflexivity |]. split; [reflexivity |].
  split; [vm_compute; reflexivity |].
  vm_compute. discriminate.
Qed.

Lemma getFingerprint_consistent_witness :
  validPlatform (number := Z) (VString "shell")
  /\ exists result,
       outcome (getFingerprint host_insecure (VString "shell")) = Normal result
       /\ outcome (sha256 host_insecure (canonicalize (attributes result)))
          = Normal (hash result).
Proof.
  assert (validPlatform (number := Z) (VString "shell")) as Hvalid
    by (right; right; reflexivity).
  split; [exact Hvalid |].
  destruct (getFingerprint_consistent host_insecure (VString "shell"))
    as (warnings & result & Hrun & _ & _ & Hcons).
  exists result. split.
  - rewrite Hrun. reflexivity.
  - apply Hcons, Hvalid.
Defined.

Lemma generateHash_coerces_platform_witness :
  VString "bogus" <> VString (number := Z) "admin"
  /\ VString "bogus" <> VString (number := Z) "shell"
  /\ outcome (generateHash host_insecure (spread example_params (VString "bogus")))
     = outcome (generateHash host_insecure (spread example_params (VString "admin"))).
Proof.
  assert (VString "bogus" <> VString (number := Z) "admin") as Ha by discriminate.
  assert (VString "bogus" <> VString (number := Z) "shell") as Hs by discriminate.
  split; [exact Ha | split; [exact Hs |]].
  apply (generateHash_coerces_platform host_insecure example_params
           (VString "bogus") Ha Hs).
Defined.

Lemma sha256_falls_back_witness :
  crypto_subtle host_insecure = None
  /\ sha256 host_insecure "abc" = ([warn_unavailable], Normal (simpleHash (JS.codeUnits "abc")))
  /\ sha256 host_failing "abc" = ([warn_failed], Normal (simpleHash (JS.codeUnits "abc"))).
Proof.
  split; [reflexivity | split].
  - apply (proj1 (sha256_falls_back host_insecure "abc")). reflexivity.
  - apply (proj1 (proj2 (sha256_falls_back host_failing "abc"))
             (fun _ _ => Throw "OperationError") "OperationError");
      reflexivity.
Defined.

Lemma getOSVersion_first_match_witness :
  JS.match_ "Android 10; Windows NT 6.1" re_Android = Some "10"
  /\ JS.match_ "Android 10; Windows NT 6.1" re_WindowsNT = Some "6.1"
  /\ getOSVersion "Android 10; Windows NT 6.1" = "10".
Proof.
  split; [reflexivity | split; [reflexivity |]].
  apply (proj1 (proj2 (proj2 (getOSVersion_first_match "Android 10; Windows NT 6.1")))
           0%nat re_Android "10" eq_refl).
  - intros j re' Hj. exfalso. inversion Hj.
  - reflexivity.
Defined.

(** * Further properties of the code *)

(** ** [getPlatformType] *)

Lemma prefix_inv (lit : string) :
  forall str, String.prefix lit str = true -> exists after, str = lit ++ after.
Proof.
  induction lit as [| a lit IH]; intros str Hp.
  - exists str. reflexivity.
  - destruct str as [| b str]; simpl in Hp; [discriminate |].
    destruct (ascii_dec a b) as [-> | _]; [| discriminate].
    destruct (IH _ Hp) as [after ->]. exists after. reflexivity.
Qed.

Lemma includes_inv (lit str : string) :
  JS.includes lit str = true -> Substring lit str.
Proof.
  induction str as [| c str IH]; cbn [JS.includes]; intros Hi.
  - rewrite orb_false_r in Hi. destruct (prefix_inv _ _ Hi) as [after ->].
    exists "", after. reflexivity.
  - apply orb_prop in Hi as [Hp | Hrest].
    + destruct (prefix_inv _ _ Hp) as [after ->].
      exists "", after. reflexivity.
    + destruct (IH Hrest) as (before & after & ->).
      exists (String c before), after. reflexivity.
Qed.

Lemma includes_iff (lit str : string) :
  JS.includes lit str = true <-> Substring lit str.
Proof. split; [apply includes_inv | apply includes_Substring]. Qed.

Lemma test1_iff (a str : string) :
  JS.test [a] str = true <-> Substring a str.
Proof.
  unfold JS.test. cbn [existsb]. rewrite orb_false_r. apply includes_iff.
Qed.

Lemma test2_iff (a b str : string) :
  JS.test [a; b] str = true <-> Substring a str \/ Substring b str.
Proof.
  unfold JS.test. cbn [existsb].
  rewrite orb_false_r, orb_true_iff, !includes_iff. reflexivity.
Qed.

Lemma test3_iff (a b c str : string) :
  JS.test [a; b; c] str = true
  <-> Substring a str \/ Substring b str \/ Substring c str.
Proof.
  unfold JS.test. cbn [existsb].
  rewrite orb_false_r, !orb_true_iff, !includes_iff. reflexivity.
Qed.

Ltac decide_test T :=
  match type of T with
  | ?b = true <-> ?P =>
      let E := fresh "E" in
      let HP := fresh "HP" in
      destruct b eqn:E;
      [ assert P as HP by (apply T; reflexivity)
      | assert (~ P) as HP by (intros HP; apply T in HP; discriminate) ];
      clear T
  end.

Lemma getPlatformType_tag (ua : string) :
  In (getPlatformType ua) platformTags.
Proof.
  unfold getPlatformType, platformTags. cbv zeta.
  repeat match goal with
         | |- context [JS.test ?alts ?s] => destruct (JS.test alts s)
         end; simpl; tauto.
Qed.

(** X1. [getPlatformType] is decided by which literals the lower-cased
    user agent mentions: each tag is returned exactly when its pattern
    matches and no earlier one does, and "web" exactly when none of the
    nine literals occurs. *)
Theorem getPlatformType_characterised (ua : string) :
  let android := mentions ua "android" in
  let ios := mentions ua "iphone" \/ mentions ua "ipad" \/ mentions ua "ipod" in
  let macos := mentions ua "macintosh" \/ mentions ua "mac os" in
  let windows := mentions ua "windows" in
  let linux := mentions ua "linux" in
  (getPlatformType ua = "android" <-> android)
  /\ (getPlatformType ua = "ios" <-> ~ android /\ ios)
  /\ (getPlatformType ua = "macos" <-> ~ android /\ ~ ios /\ macos)
  /\ (getPlatformType ua = "windows"
      <-> ~ android /\ ~ ios /\ ~ macos /\ windows)
  /\ (getPlatformType ua = "linux"
      <-> ~ android /\ ~ ios /\ ~ macos /\ ~ windows /\ linux)
  /\ (getPlatformType ua = "web"
      <-> ~ android /\ ~ ios /\ ~ macos /\ ~ windows /\ ~ linux)
  /\ In (getPlatformType ua) platformTags.
Proof.
  unfold mentions, getPlatformType. cbv zeta.
  set (low := JS.toLowerCase ua).
  pose proof (test1_iff "android" low) as T1.
  pose proof (test3_iff "iphone" "ipad" "ipod" low) as T2.
  pose proof (test2_iff "macintosh" "mac os" low) as T3.
  pose proof (test1_iff "windows" low) as T4.
  pose proof (test1_iff "linux" low) as T5.
  decide_test T1; [| decide_test T2; [| decide_test T3;
    [| decide_test T4; [| decide_test T5]]]];
    (repeat split; intros; try discriminate; try tauto;
     try (unfold platformTags; simpl; tauto)).
Qed.

(** ** [getOSVersion] *)

Lemma matchHere_nonempty (re : JS.VersionRegExp) (str group : string) :
  JS.matchHere re str = Some group -> group <> "".
Proof.
  unfold JS.matchHere.
  destruct (String.prefix (JS.literal re) str); [| discriminate].
  destruct (JS.drop _ str) as [| c rest]; [discriminate |].
  destruct (JS.isSpace c); [| discriminate].
  destruct (JS.takeWhile (JS.class re) rest); [discriminate |].
  intros [= <-]. discriminate.
Qed.

Lemma match_nonempty (re : JS.VersionRegExp) (str group : string) :
  JS.match_ str re = Some group -> group <> "".
Proof.
  induction str as [| c str IH]; simpl.
  - destruct (JS.matchHere re "") eqn:Hm; [| discriminate].
    intros [= <-]. eapply matchHere_nonempty, Hm.
  - destruct (JS.matchHere re (String c str)) eqn:Hm; [| exact IH].
    intros [= <-]. eapply matchHere_nonempty, Hm.
Qed.

Lemma replaceUnderscores_digitOrUnderscore (group : string) :
  forallb JS.digitOrUnderscore (list_ascii_of_string group) = true ->
  forallb JS.digitOrDot (list_ascii_of_string (JS.replaceUnderscores group)) = true.
Proof.
  induction group as [| c group IH]; simpl; [reflexivity |].
  intros [Hc Hrest]%andb_prop. rewrite (IH Hrest), andb_true_r.
  unfold JS.digitOrUnderscore in Hc. unfold JS.digitOrDot.
  destruct (Ascii.eqb c "_"); [reflexivity |].
  rewrite orb_false_r in Hc. now rewrite Hc.
Qed.

Lemma replaceUnderscores_nonempty (group : string) :
  group <> "" -> JS.replaceUnderscores group <> "".
Proof. destruct group; [congruence | discriminate]. Qed.

Lemma versionShape_intro (s : string) :
  s <> "" -> forallb JS.digitOrDot (list_ascii_of_string s) = true ->
  versionShape s = true.
Proof.
  intros Hne Hall. unfold versionShape. rewrite Hall, andb_true_r.
  destruct (String.eqb_spec s ""); [contradiction | reflexivity].
Qed.

Lemma versionShape_dotted (re : JS.VersionRegExp) (ua group : string) :
  JS.class re = JS.digitOrDot ->
  JS.match_ ua re = Some group -> versionShape group = true.
Proof.
  intros Hclass Hm. apply versionShape_intro.
  - eapply match_nonempty, Hm.
  - rewrite <- Hclass. eapply match_class, Hm.
Qed.

Lemma versionShape_underscored (re : JS.VersionRegExp) (ua group : string) :
  JS.class re = JS.digitOrUnderscore ->
  JS.match_ ua re = Some group ->
  versionShape (JS.replaceUnderscores group) = true.
Proof.
  intros Hclass Hm. apply versionShape_intro.
  - eapply replaceUnderscores_nonempty, match_nonempty, Hm.
  - apply replaceUnderscores_digitOrUnderscore.
    rewrite <- Hclass. eapply match_class, Hm.
Qed.

Lemma getOSVersion_cases (ua : string) :
  getOSVersion ua = "unknown"
  /\ JS.match_ ua re_Android = None /\ JS.match_ ua re_OS = None
  /\ JS.match_ ua re_WindowsNT = None /\ JS.match_ ua re_MacOSX = None
  \/ versionShape (getOSVersion ua) = true
     /\ ~ (JS.match_ ua re_Android = None /\ JS.match_ ua re_OS = None
           /\ JS.match_ ua re_WindowsNT = None
           /\ JS.match_ ua re_MacOSX = None).
Proof.
  unfold getOSVersion. cbv zeta.
  destruct (JS.match_ ua re_Android) as [g |] eqn:H1.
  { right. split; [eapply versionShape_dotted, H1; reflexivity |].
    intros (Hn & _). discriminate. }
  destruct (JS.match_ ua re_OS) as [g |] eqn:H2.
  { right. split; [eapply versionShape_underscored, H2; reflexivity |].
    intros (_ & Hn & _). discriminate. }
  destruct (JS.match_ ua re_WindowsNT) as [g |] eqn:H3.
  { right. split; [eapply versionShape_dotted, H3; reflexivity |].
    intros (_ & _ & Hn & _). discriminate. }
  destruct (JS.match_ ua re_MacOSX) as [g |] eqn:H4.
  { right. split; [eapply versionShape_underscored, H4; reflexivity |].
    intros (_ & _ & _ & Hn). discriminate. }
  left. repeat split.
Qed.

Lemma versionShape_no_underscore (s : string) :
  versionShape s = true -> JS.includes "_" s = false.
Proof.
  intros [_ Hall]%andb_prop.
  induction s as [| c s IH]; [reflexivity |].
  simpl in Hall. apply andb_prop in Hall as [Hc Hs].
  cbn [JS.includes]. rewrite (IH Hs), orb_false_r.
  cbn [String.prefix].
  destruct (ascii_dec "_" c) as [<- | _]; [discriminate Hc | reflexivity].
Qed.

(** X2. [getOSVersion] returns "unknown" exactly when none of its four
    patterns matches; in every other case the result is a non-empty string
    of digits and dots, so it never holds an underscore. *)
Theorem getOSVersion_shape (ua : string) :
  (getOSVersion ua = "unknown"
   <-> JS.match_ ua re_Android = None /\ JS.match_ ua re_OS = None
       /\ JS.match_ ua re_WindowsNT = None /\ JS.match_ ua re_MacOSX = None)
  /\ (getOSVersion ua = "unknown" \/ versionShape (getOSVersion ua) = true)
  /\ JS.includes "_" (getOSVersion ua) = false.
Proof.
  destruct (getOSVersion_cases ua) as [(Hu & Hnone) | (Hshape & Hsome)].
  - rewrite Hu. split; [tauto |]. split; [now left | reflexivity].
  - split; [| split; [now right | apply versionShape_no_underscore, Hshape]].
    split; [| tauto].
    intros Hu. rewrite Hu in Hshape. discriminate.
Qed.

(** ** [collectAttributes] *)

(** X3. The record [collectAttributes] builds has one of the six tags as
    device platform, "unknown" or a dotted version as OS version, the
    host's pixel ratio when that is truthy and 1 otherwise (never
    [undefined] or [null]), the host's screen size, timezone and language
    unchanged, and no platform. *)
Theorem collectAttributes_shape
    (number : Type) (N : JSNumber number) (host : Host number) :
  let attributes := collectAttributes host in
  (exists tag, devicePlatform attributes = VString tag /\ In tag platformTags)
  /\ (exists v, osVersion attributes = VString v
                /\ (v = "unknown" \/ versionShape v = true))
  /\ (pixelRatio attributes = window_devicePixelRatio host
      /\ ToBoolean (pixelRatio attributes) = true
      \/ pixelRatio attributes = VNumber numberOne
         /\ ToBoolean (window_devicePixelRatio host) = false)
  /\ pixelRatio attributes <> VUndefined
  /\ pixelRatio attributes <> VNull
  /\ platform attributes = VUndefined.
Proof.
  cbv zeta. unfold collectAttributes. cbn [devicePlatform osVersion pixelRatio platform].
  split; [| split; [| split; [| split; [| split]]]].
  - eexists. split; [reflexivity |].
    apply getPlatformType_tag.
  - eexists. split; [reflexivity |].
    destruct (getOSVersion_cases (navigator_userAgent host))
      as [(Hu & _) | (Hshape & _)]; [left; exact Hu | right; exact Hshape].
  - unfold or_else.
    destruct (ToBoolean (window_devicePixelRatio host)) eqn:Hb; auto.
  - unfold or_else.
    destruct (window_devicePixelRatio host); simpl; try discriminate.
    + destruct b; discriminate.
    + destruct (numberToBoolean n); discriminate.
    + destruct (negb (s =? "")%string); discriminate.
  - unfold or_else.
    destruct (window_devicePixelRatio host); simpl; try discriminate.
    + destruct b; discriminate.
    + destruct (numberToBoolean n); discriminate.
    + destruct (negb (s =? "")%string); discriminate.
  - reflexivity.
Qed.

(** ** [simpleHash]: the loops as polynomials *)

Section TruncateOnce.

Variable mix exactMix : Z -> Z -> Z -> Z.
Hypothesis mix_congruent :
  forall h h' char i k,
    h = h' + 2 ^ 32 * k ->
    exists k', mix h char i = exactMix h' char i + 2 ^ 32 * k'.

Lemma rolling_congruent (traversal : list (nat * Z)) :
  forall a b k,
    a = b + 2 ^ 32 * k ->
    exists k', Reference.rolling mix a traversal
               = Polynomial.exact exactMix b traversal + 2 ^ 32 * k'.
Proof.
  unfold Reference.rolling, Polynomial.exact.
  induction traversal as [| ic rest IH]; intros a b k Hab; simpl.
  - now exists k.
  - destruct (mix_congruent a b (snd ic) (Z.of_nat (fst ic)) k Hab) as [k1 Hk1].
    rewrite <- ToInt32_trunc32.
    destruct (ToInt32_decomp (mix a (snd ic) (Z.of_nat (fst ic)))) as [k2 Hk2].
    apply (IH _ _ (k1 + k2)). rewrite Hk2, Hk1. ring.
Qed.

Lemma rolling_truncate_once (start : Z) (traversal : list (nat * Z)) :
  - 2 ^ 31 <= start < 2 ^ 31 ->
  Reference.rolling mix start traversal
  = JS.ToInt32 (Polynomial.exact exactMix start traversal).
Proof.
  intros Hs.
  destruct (rolling_congruent traversal start start 0 ltac:(ring)) as [k Hk].
  rewrite <- (ToInt32_fixed _ (rolling_range mix traversal start Hs)).
  now apply ToInt32_congr with k.
Qed.

End TruncateOnce.

Lemma exact_horner (multiplier : Z) (str : list Z) :
  forall j start,
    Polynomial.exact (fun h char _ => multiplier * h + char) start
                     (Reference.indexedFrom j str)
    = Polynomial.horner multiplier start str.
Proof.
  unfold Polynomial.exact, Polynomial.horner.
  induction str as [| c str IH]; intros j start; simpl; [reflexivity |].
  apply IH.
Qed.

Ltac shift_as_product m :=
  let k := fresh "k" in
  intros ? ? ? ? k ->;
  rewrite Z.shiftl_mul_pow2 by lia;
  exists (m * k); ring.

(** X4. Truncating at every step is truncating once: each of the four
    loops of [simpleHash] is the int32 of an exact integer polynomial in
    the code units, with multiplier 31 (Horner form, from 0), 127 (plus
    code unit and index), 7 (last character first, code unit times
    position) and 33 (Horner form, from 5381). *)
Theorem simpleHash_loops_polynomial (str : list Z) :
  loop1 str = JS.ToInt32 (Polynomial.horner 31 0 str)
  /\ loop2 str
     = JS.ToInt32 (Polynomial.exact Polynomial.positional 0 (Reference.forward str))
  /\ loop3 str
     = JS.ToInt32 (Polynomial.exact Polynomial.reverse 0 (Reference.reverse str))
  /\ loop4 str = JS.ToInt32 (Polynomial.horner 33 5381 str).
Proof.
  split; [| split; [| split]].
  - rewrite loop1_rolling, <- (exact_horner 31 str 0 0).
    apply rolling_truncate_once; [| lia].
    unfold Reference.mixForward. shift_as_product 31.
  - rewrite loop2_rolling.
    apply rolling_truncate_once; [| lia].
    unfold Reference.mixPositional, Polynomial.positional. shift_as_product 127.
  - rewrite loop3_rolling.
    apply rolling_truncate_once; [| lia].
    unfold Reference.mixReverse, Polynomial.reverse. shift_as_product 7.
  - rewrite loop4_rolling, <- (exact_horner 33 str 0 5381).
    apply rolling_truncate_once; [| lia].
    unfold Reference.mixDJB2. shift_as_product 33.
Qed.

(** ** [sha256]: the secure path *)

Lemma append_nil_r (s : string) : s ++ "" = s.
Proof. induction s as [| c s IH]; simpl; [reflexivity | now rewrite IH]. Qed.

Lemma concat_empty_cons (x : string) (xs : list string) :
  String.concat "" (x :: xs) = x ++ String.concat "" xs.
Proof.
  destruct xs as [| y ys]; simpl; [now rewrite append_nil_r | reflexivity].
Qed.

Lemma byte_below_256 (b : Byte.byte) :
  0 <= Z.of_N (Byte.to_N b) < 16 ^ Z.of_nat 2.
Proof. destruct b; vm_compute; split; congruence. Qed.

Lemma byteHex_nibbles (b : Byte.byte) :
  byteHex b = Reference.nibbles 2 (Z.of_N (Byte.to_N b)).
Proof.
  pose proof (byte_below_256 b) as Hb. unfold byteHex.
  rewrite toString16_nonneg by lia.
  apply (padStart_hexDigits 1), Hb.
Qed.

Lemma concat_byteHex_shape (buffer : list Byte.byte) :
  String.length (String.concat "" (map byteHex buffer))
  = (2 * List.length buffer)%nat
  /\ forallb isLowerHex
       (list_ascii_of_string (String.concat "" (map byteHex buffer))) = true.
Proof.
  induction buffer as [| b rest [IHlen IHhex]]; [split; reflexivity |].
  cbn [map]. rewrite concat_empty_cons, byteHex_nibbles. split.
  - rewrite length_append, nibbles_length, IHlen. simpl. lia.
  - rewrite list_ascii_of_string_append, forallb_app, nibbles_isLowerHex, IHhex.
    reflexivity.
Qed.

Section FurtherHasherProperties.

Context {number : Type} `{JSNumber number}.

(** X5. When [crypto.subtle.digest] resolves to a buffer, [sha256] emits
    no warning and returns the bytes of the buffer in order, each as two
    lowercase hex digits: a string of twice the buffer's length over
    [0-9a-f]. *)
Theorem sha256_secure_path (host : Host number) (str : string)
    (digest : string -> list Byte.byte -> completion (list Byte.byte))
    (buffer : list Byte.byte) :
  crypto_subtle host = Some digest ->
  digest "SHA-256" (TextEncoder_encode str) = Normal buffer ->
  let hex := String.concat "" (map byteHex buffer) in
  sha256 host str = ([], Normal hex)
  /\ String.length hex = (2 * List.length buffer)%nat
  /\ forallb isLowerHex (list_ascii_of_string hex) = true.
Proof.
  intros Hsome Hbuf hex. split.
  - unfold sha256. rewrite Hsome, Hbuf. reflexivity.
  - apply concat_byteHex_shape.
Qed.

(** ** [generateHash]: warnings *)

Lemma log_bind_normal {A B} (m : Eff A) (k : A -> Eff B)
    (warnings : list string) (a : A) :
  m = (warnings, Normal a) -> log (bind m k) = (warnings ++ log (k a))%list.
Proof. intros ->. unfold bind, log. destruct (k a). reflexivity. Qed.

Lemma sha256_log (host : Host number) (str : string) :
  log (sha256 host str) = []
  \/ log (sha256 host str) = [warn_failed]
  \/ log (sha256 host str) = [warn_unavailable].
Proof.
  unfold sha256. destruct (crypto_subtle host) as [digest |].
  - destruct (digest "SHA-256" (TextEncoder_encode str)); simpl; auto.
  - simpl; auto.
Qed.

Lemma strictNotEqual_iff (v : value number) (lit : string) :
  strictNotEqual v lit = true <-> v <> VString lit.
Proof.
  destruct v as [| | b | n | s]; simpl; try (split; [discriminate | reflexivity]).
  destruct (String.eqb_spec s lit) as [-> | Hne]; simpl.
  - split; [discriminate | intros Hc; now elim Hc].
  - split; [intros _ [= Hs]; contradiction | reflexivity].
Qed.

Lemma generateHash_log (host : Host number) (params : Params number) :
  let platform0 := withDefault (platform params) (VString "admin") in
  log (generateHash host params)
  = ((if strictNotEqual platform0 "admin" && strictNotEqual platform0 "shell"
      then [warn_platform] else [])
     ++ log (sha256 host (fingerprintString params (coercePlatform platform0))))%list.
Proof.
  cbv zeta. unfold generateHash, coercePlatform. cbv zeta.
  destruct (strictNotEqual _ "admin" && strictNotEqual _ "shell");
    exact (log_bind_normal _
             (fun q => sha256 host (fingerprintString params q)) _ _ eq_refl).
Qed.

(** X6. [generateHash] writes the invalid-platform warning exactly when
    the [platform] property is present and is neither "admin" nor "shell";
    a missing platform takes the default silently. *)
Theorem generateHash_platform_warning (host : Host number) (params : Params number) :
  In warn_platform (log (generateHash host params))
  <-> platform params <> VUndefined
      /\ platform params <> VString "admin"
      /\ platform params <> VString "shell".
Proof.
  rewrite generateHash_log. cbv zeta.
  set (platform0 := withDefault (platform params) (VString "admin")).
  assert (~ In warn_platform
            (log (sha256 host (fingerprintString params (coercePlatform platform0)))))
    as Hsha.
  { destruct (sha256_log host (fingerprintString params (coercePlatform platform0)))
      as [-> | [-> | ->]]; simpl; intros Hin;
      repeat (destruct Hin as [Hin | Hin]); try contradiction;
      vm_compute in Hin; discriminate Hin. }
  destruct (strictNotEqual platform0 "admin" && strictNotEqual platform0 "shell")
    eqn:Hcond.
  - apply andb_prop in Hcond as [Ha Hs].
    apply strictNotEqual_iff in Ha, Hs.
    split; [intros _ | intros _; now left].
    subst platform0. destruct (platform params); simpl in *;
      repeat split; congruence.
  - split; [intros Hin; simpl in Hin; contradiction |].
    intros (Hu & Ha & Hs). exfalso.
    apply andb_false_iff in Hcond.
    assert (platform0 = platform params) as Hp0
      by (subst platform0; revert Hu; destruct (platform params);
          simpl; congruence).
    rewrite Hp0 in Hcond.
    destruct Hcond as [Hc | Hc];
      [apply (proj2 (strictNotEqual_iff _ _)) in Ha
      | apply (proj2 (strictNotEqual_iff _ _)) in Hs]; congruence.
Qed.

End FurtherHasherProperties.

(** ** [generateHash]: the joined string *)

Lemma append_cancel_l (s t u : string) : s ++ t = s ++ u -> t = u.
Proof.
  induction s as [| c s IH]; simpl; [trivial |].
  intros [= Heq]. now apply IH.
Qed.

Lemma delimiterFree_cons (c : ascii) (s : string) :
  delimiterFree (String c s) = true -> c <> "|"%char /\ delimiterFree s = true.
Proof.
  unfold delimiterFree. simpl. intros [Hc Hs]%andb_prop. split; [| exact Hs].
  intros ->. discriminate Hc.
Qed.

(** Two delimiter-free heads followed by a delimiter split a string the
    same way. *)
Lemma delimiter_split (a : string) :
  forall b s t,
    delimiterFree a = true -> delimiterFree b = true ->
    a ++ String "|" s = b ++ String "|" t -> a = b /\ s = t.
Proof.
  induction a as [| c a IH]; intros b s t Ha Hb Heq.
  - destruct b as [| d b]; simpl in Heq.
    + injection Heq as ->. now split.
    + injection Heq as <- _. now apply delimiterFree_cons in Hb as [Hd _].
  - apply delimiterFree_cons in Ha as [Hc Ha].
    destruct b as [| d b]; simpl in Heq.
    + injection Heq as -> _. now elim Hc.
    + injection Heq as -> Heq. apply delimiterFree_cons in Hb as [_ Hb].
      destruct (IH _ _ _ Ha Hb Heq) as [-> ->]. now split.
Qed.

Lemma delimiterFree_no_split (a b t : string) :
  delimiterFree a = true -> a <> b ++ String "|" t.
Proof.
  revert b. induction a as [| c a IH]; intros b Ha Heq.
  - destruct b; discriminate.
  - apply delimiterFree_cons in Ha as [Hc Ha].
    destruct b as [| d b]; simpl in Heq.
    + injection Heq as -> _. now elim Hc.
    + injection Heq as _ Heq. now apply (IH b Ha).
Qed.

Lemma concat_cons_cons (x y : string) (l : list string) :
  String.concat "|" (x :: y :: l) = x ++ String "|" (String.concat "|" (y :: l)).
Proof. reflexivity. Qed.

Lemma concat_delimiter_injective (l1 : list string) :
  forall l2,
    List.length l1 = List.length l2 ->
    forallb delimiterFree l1 = true -> forallb delimiterFree l2 = true ->
    String.concat "|" l1 = String.concat "|" l2 -> l1 = l2.
Proof.
  induction l1 as [| x l1 IH]; intros l2 Hlen H1 H2 Heq.
  - destruct l2; [reflexivity | discriminate].
  - destruct l2 as [| y l2]; [discriminate |].
    injection Hlen as Hlen.
    cbn [forallb] in H1, H2.
    apply andb_prop in H1 as [Hx H1]. apply andb_prop in H2 as [Hy H2].
    destruct l1 as [| x' l1], l2 as [| y' l2]; try discriminate.
    + simpl in Heq. now subst.
    + rewrite !concat_cons_cons in Heq.
      destruct (delimiter_split _ _ _ _ Hx Hy Heq) as [-> Hrest].
      f_equal. apply IH; assumption.
Qed.

Lemma simpleHash_hex32 (str : list Z) :
  String.length (simpleHash str) = 32%nat
  /\ forallb isLowerHex (list_ascii_of_string (simpleHash str)) = true.
Proof.
  destruct (hex8_shape _ (loop1_range str)) as (_ & L1 & C1).
  destruct (hex8_shape _ (loop2_range str)) as (_ & L2 & C2).
  destruct (hex8_shape _ (loop3_range str)) as (_ & L3 & C3).
  destruct (hex8_shape _ (loop4_range str)) as (_ & L4 & C4).
  unfold simpleHash. cbv zeta. split.
  - rewrite !length_append, L1, L2, L3, L4. reflexivity.
  - rewrite !list_ascii_of_string_append, !forallb_app, C1, C2, C3, C4.
    reflexivity.
Qed.

Section JoinedString.

Context {number : Type} `{JSNumber number}.

Lemma fingerprintString_fieldStrings (params : Params number) (p : value number) :
  fingerprintString params p = String.concat "|" (fieldStrings params p).
Proof. reflexivity. Qed.

Lemma generateHash_same_string (host : Host number) (r1 r2 : Params number) :
  fingerprintString r1 (coercePlatform (withDefault (platform r1) (VString "admin")))
  = fingerprintString r2 (coercePlatform (withDefault (platform r2) (VString "admin"))) ->
  outcome (generateHash host r1) = outcome (generateHash host r2).
Proof. intros Heq. now rewrite !generateHash_outcome, Heq. Qed.

(** X7. The delimiter is not escaped: moving a "|" from the end of the
    timezone to the start of the language gives a different record with
    the same digest, in every host. *)
Theorem generateHash_delimiter_collision
    (host : Host number) (r : Params number) (a b c : string) :
  let r1 := setField FTimezone (VString (a ++ "|" ++ b))
              (setField FLanguage (VString c) r) in
  let r2 := setField FTimezone (VString a)
              (setField FLanguage (VString (b ++ "|" ++ c)) r) in
  r1 <> r2
  /\ outcome (generateHash host r1) = outcome (generateHash host r2).
Proof.
  cbv zeta. split.
  - intros Heq. apply (f_equal timezone) in Heq. simpl in Heq.
    injection Heq as Heq. apply (f_equal String.length) in Heq.
    rewrite length_append in Heq. simpl in Heq. lia.
  - apply generateHash_same_string.
    unfold fingerprintString, Array_join. cbn [setField map joinElement ToString
      devicePlatform osVersion screenWidth screenHeight pixelRatio timezone
      language platform String.concat].
    do 5 f_equal. rewrite !append_assoc. reflexivity.
Qed.

(** X8. Short of that, the joined string is injective: when none of the
    eight stringified fields holds a "|", two parameter sets with the same
    joined string have the same eight stringified fields. *)
Theorem fingerprintString_injective
    (r1 r2 : Params number) (p1 p2 : value number) :
  forallb delimiterFree (fieldStrings r1 p1) = true ->
  forallb delimiterFree (fieldStrings r2 p2) = true ->
  fingerprintString r1 p1 = fingerprintString r2 p2 ->
  fieldStrings r1 p1 = fieldStrings r2 p2.
Proof.
  intros H1 H2 Heq. rewrite !fingerprintString_fieldStrings in Heq.
  apply concat_delimiter_injective; [reflexivity | assumption ..].
Qed.

Lemma coercePlatform_blankMissing (v : value number) :
  coercePlatform (withDefault (blankMissing v) (VString "admin"))
  = coercePlatform (withDefault v (VString "admin")).
Proof. destruct v; reflexivity. Qed.

Lemma joinElement_blankMissing (v : value number) :
  joinElement (blankMissing v) = joinElement v.
Proof. destruct v; reflexivity. Qed.

(** X9. A property that is missing, [null] or the empty string is one and
    the same to [generateHash]: blanking any of the eight fields leaves the
    digest unchanged, and the empty parameter object is hashed as
    "|||||||admin". *)
Theorem generateHash_missing_fields
    (host : Host number) (r : Params number) (f : field) :
  outcome (generateHash host (setField f (blankMissing (getField f r)) r))
  = outcome (generateHash host r)
  /\ generateHash host noParams = sha256 host "|||||||admin".
Proof.
  split.
  - apply generateHash_same_string.
    unfold fingerprintString, Array_join. f_equal.
    destruct f; simpl;
      rewrite ?joinElement_blankMissing, ?coercePlatform_blankMissing;
      reflexivity.
  - change (generateHash host noParams)
      with (bind (ret (VString "admin"))
                 (fun q => sha256 host (fingerprintString noParams q))).
    rewrite bind_ret. reflexivity.
Qed.

(** X10. For one and the same record the joined string determines the
    platform: two platform values that join to the same string are
    stringified alike; so "admin" and "shell" never share a joined
    string. *)
Theorem fingerprintString_platform_injective
    (r : Params number) (p q : value number) :
  (fingerprintString r p = fingerprintString r q ->
   joinElement p = joinElement q)
  /\ fingerprintString r (VString "admin") <> fingerprintString r (VString "shell").
Proof.
  assert (forall p q, fingerprintString r p = fingerprintString r q ->
                      joinElement p = joinElement q) as Hinj.
  { intros p' q'. unfold fingerprintString, Array_join.
    cbn [map String.concat]. intros Heq.
    repeat (apply append_cancel_l in Heq; cbn [append] in Heq;
            injection Heq as Heq).
    exact Heq. }
  split; [apply Hinj |].
  intros Heq. apply Hinj in Heq. discriminate Heq.
Qed.

(** ** [getFingerprint] and [getHash] *)

Lemma bind_ret_hash (m : Eff string) (attrs : Params number) :
  bind (bind m (fun h => ret {| attributes := attrs; hash := h |}))
       (fun result => ret (hash result))
  = m.
Proof.
  destruct m as [warnings [digest | e]]; simpl; [| reflexivity].
  now rewrite !app_nil_r.
Qed.

(** X11. [getHash] is [generateHash] on the collected attributes with the
    platform attached, warnings included; without an argument it is
    [generateHash(collectAttributes())]; and for an argument that is
    neither "admin" nor "shell" it returns the digest it returns for
    "admin". *)
Theorem getHash_composes (host : Host number) (p : value number) :
  getHash host p
  = generateHash host
      (spread (collectAttributes host) (withDefault p (VString "admin")))
  /\ getHash host VUndefined = generateHash host (collectAttributes host)
  /\ (p <> VString "admin" -> p <> VString "shell" ->
      outcome (getHash host p) = outcome (getHash host (VString "admin"))).
Proof.
  assert (forall q, getHash host q
                    = generateHash host
                        (spread (collectAttributes host)
                                (withDefault q (VString "admin")))) as Hget.
  { intros q. unfold getHash, getFingerprint. cbv zeta. apply bind_ret_hash. }
  split; [apply Hget | split].
  - rewrite Hget. reflexivity.
  - intros Ha Hs. rewrite !Hget.
    apply generateHash_same_string. cbn [platform spread].
    rewrite !fingerprintString_spread.
    assert (withDefault (withDefault p (VString "admin")) (VString "admin")
            = withDefault p (VString "admin")) as -> by (destruct p; reflexivity).
    now rewrite (coercePlatform_invalid p Ha Hs).
Qed.

(** X12. On a host without [crypto.subtle], [getHash] completes normally
    for every platform argument with a digest of exactly 32 lowercase hex
    digits, and says so with the unavailability warning. *)
Theorem getHash_fallback_digest (host : Host number) (p : value number) :
  crypto_subtle host = None ->
  exists digest,
    outcome (getHash host p) = Normal digest
    /\ String.length digest = 32%nat
    /\ forallb isLowerHex (list_ascii_of_string digest) = true
    /\ In warn_unavailable (log (getHash host p)).
Proof.
  intros Hnone.
  assert (getHash host p
          = generateHash host
              (spread (collectAttributes host) (withDefault p (VString "admin"))))
    as Hget
    by (unfold getHash, getFingerprint; cbv zeta; apply bind_ret_hash).
  rewrite Hget, generateHash_outcome, generateHash_log. cbv zeta.
  set (str := fingerprintString _ _).
  assert (sha256 host str = ([warn_unavailable], Normal (simpleHash (JS.codeUnits str))))
    as Hsha by (unfold sha256; rewrite Hnone; reflexivity).
  rewrite Hsha. exists (simpleHash (JS.codeUnits str)).
  split; [reflexivity |].
  destruct (simpleHash_hex32 (JS.codeUnits str)) as [Hlen Hhex].
  split; [exact Hlen | split; [exact Hhex |]].
  apply in_or_app. right. now left.
Qed.

End JoinedString.

(** ** The further properties on concrete hosts *)

Lemma sha256_secure_path_witness :
  crypto_subtle host_resolving = Some (fun _ data => Normal data)
  /\ sha256 host_resolving "abc" = ([], Normal "616263")
  /\ String.length "616263" = (2 * 3)%nat.
Proof.
  split; [reflexivity |].
  pose proof (sha256_secure_path host_resolving "abc"
                (fun _ data => Normal data) (TextEncoder_encode "abc")
                eq_refl eq_refl) as Hsecure.
  cbv zeta in Hsecure. destruct Hsecure as (Hrun & Hlen & _).
  split; [exact Hrun | exact Hlen].
Defined.

Lemma fingerprintString_injective_witness :
  forallb delimiterFree (fieldStrings example_params (VString "admin")) = true
  /\ fingerprintString example_params (VString "admin")
     = fingerprintString
         (setField FScreenWidth (VString "1440") example_params) (VString "admin")
  /\ fieldStrings example_params (VString "admin")
     = fieldStrings
         (setField FScreenWidth (VString "1440") example_params) (VString "admin").
Proof.
  split; [reflexivity | split; [reflexivity |]].
  apply (fingerprintString_injective example_params
           (setField FScreenWidth (VString "1440") example_params)
           (VString "admin") (VString "admin"));
    reflexivity.
Defined.

Lemma fingerprintString_platform_injective_witness :
  fingerprintString example_params (VNumber 5)
  = fingerprintString example_params (VString "5")
  /\ joinElement (number := Z) (VNumber 5) = joinElement (VString "5").
Proof.
  split; [reflexivity |].
  apply (proj1 (fingerprintString_platform_injective example_params
                  (VNumber 5) (VString "5"))).
  reflexivity.
Defined.

Lemma getHash_composes_witness :
  VString "bogus" <> VString (number := Z) "admin"
  /\ VString "bogus" <> VString (number := Z) "shell"
  /\ outcome (getHash host_insecure (VString "bogus"))
     = outcome (getHash host_insecure (VString "admin")).
Proof.
  assert (VString "bogus" <> VString (number := Z) "admin") as Ha by discriminate.
  assert (VString "bogus" <> VString (number := Z) "shell") as Hs by discriminate.
  split; [exact Ha | split; [exact Hs |]].
  apply (proj2 (proj2 (getHash_composes host_insecure (VString "bogus"))) Ha Hs).
Defined.

Lemma getHash_fallback_digest_witness :
  crypto_subtle host_insecure = None
  /\ exists digest,
       outcome (getHash host_insecure VUndefined) = Normal digest
       /\ String.length digest = 32%nat.
Proof.
  split; [reflexivity |].
  destruct (getHash_fallback_digest host_insecure VUndefined eq_refl)
    as (digest & Hrun & Hlen & _).
  exists digest. split; [exact Hrun | exact Hlen].
Defined.

(** ** [getOSVersion]: when a version is found *)

Lemma drop_append (lit rest : string) :
  JS.drop (String.length lit) (lit ++ rest) = rest.
Proof.
  induction lit as [| c lit IH]; simpl; [now destruct rest | exact IH].
Qed.

Lemma matchHere_token (re : JS.VersionRegExp) (ws d : ascii) (after : string) :
  JS.isSpace ws = true -> JS.class re d = true ->
  JS.matchHere re (JS.literal re ++ String ws (String d after)) <> None.
Proof.
  intros Hws Hd. unfold JS.matchHere.
  rewrite prefix_append, drop_append, Hws. simpl. rewrite Hd. discriminate.
Qed.

Lemma match_append (re : JS.VersionRegExp) (before str : string) :
  JS.match_ str re <> None -> JS.match_ (before ++ str) re <> None.
Proof.
  intros Hm. induction before as [| c before IH]; [exact Hm |].
  simpl. destruct (JS.matchHere re (String c (before ++ str)));
    [discriminate | exact IH].
Qed.

Lemma match_here (re : JS.VersionRegExp) (str : string) :
  JS.matchHere re str <> None -> JS.match_ str re <> None.
Proof.
  intros Hm. destruct str; simpl;
    destruct (JS.matchHere re _); congruence.
Qed.

Lemma matchHere_inv (re : JS.VersionRegExp) (str group : string) :
  JS.matchHere re str = Some group -> hasToken re str.
Proof.
  unfold JS.matchHere.
  destruct (String.prefix (JS.literal re) str) eqn:Hp; [| discriminate].
  destruct (prefix_inv _ _ Hp) as [rest ->].
  rewrite drop_append.
  destruct rest as [| ws rest]; [discriminate |].
  destruct (JS.isSpace ws) eqn:Hws; [| discriminate].
  destruct rest as [| d after]; [discriminate |].
  simpl. destruct (JS.class re d) eqn:Hd; [| discriminate].
  intros _. exists "", ws, d, after. auto.
Qed.

Lemma match_inv (re : JS.VersionRegExp) (str group : string) :
  JS.match_ str re = Some group -> hasToken re str.
Proof.
  induction str as [| c str IH]; simpl.
  - destruct (JS.matchHere re "") eqn:Hm; [| discriminate].
    intros _. eapply matchHere_inv, Hm.
  - destruct (JS.matchHere re (String c str)) eqn:Hm.
    + intros _. eapply matchHere_inv, Hm.
    + intros Hrest. destruct (IH Hrest) as (before & ws & d & after & -> & Hws & Hd).
      exists (String c before), ws, d, after. auto.
Qed.

Lemma match_None_iff (re : JS.VersionRegExp) (ua : string) :
  JS.match_ ua re = None <-> ~ hasToken re ua.
Proof.
  split.
  - intros Hnone (before & ws & d & after & -> & Hws & Hd).
    apply (match_append re before _ (match_here _ _ (matchHere_token re ws d after Hws Hd))).
    exact Hnone.
  - intros Hno. destruct (JS.match_ ua re) as [group |] eqn:Hm; [| reflexivity].
    elim Hno. eapply match_inv, Hm.
Qed.

(** X13. [getOSVersion] answers "unknown" exactly for the user agents
    that hold no version token of any of the four kinds (the literal
    Android, OS, Windows NT or Mac OS X, then one white space character,
    then a digit or the separator of that kind); a user agent that holds
    one gets a dotted version. *)
Theorem getOSVersion_unknown_iff (ua : string) :
  let token := hasToken re_Android ua \/ hasToken re_OS ua
               \/ hasToken re_WindowsNT ua \/ hasToken re_MacOSX ua in
  (getOSVersion ua = "unknown" <-> ~ token)
  /\ (token -> versionShape (getOSVersion ua) = true).
Proof.
  cbv zeta.
  pose proof (match_None_iff re_Android ua) as M1.
  pose proof (match_None_iff re_OS ua) as M2.
  pose proof (match_None_iff re_WindowsNT ua) as M3.
  pose proof (match_None_iff re_MacOSX ua) as M4.
  destruct (getOSVersion_cases ua) as [(Hu & Hnone) | (Hshape & Hsome)].
  - split; [| tauto]. rewrite Hu. tauto.
  - split; [| intros _; exact Hshape].
    split; [| tauto].
    intros Hu. rewrite Hu in Hshape. discriminate.
Qed.

Lemma getOSVersion_unknown_iff_witness :
  hasToken re_WindowsNT ua_windows
  /\ versionShape (getOSVersion ua_windows) = true.
Proof.
  assert (hasToken re_WindowsNT ua_windows) as Htoken.
  { exists "Mozilla/5.0 (", " "%char, "1"%char,
      "0.0; Win64; x64) AppleWebKit/537.36 (KHTML, like Gecko) Chrome/120.0.0.0 Safari/537.36".
    repeat split. }
  split; [exact Htoken |].
  apply (proj2 (getOSVersion_unknown_iff ua_windows)).
  right. right. left. exact Htoken.
Defined.
